(** * The OpenAI stream transform of [src/utils/openai-stream.ts]

    A shallow embedding of the text extractor ([chunkToText], [streamable]),
    of the function-call transformer ([createFunctionCallTransformer]) and
    of [OpenAIStream], with the properties of the stream they produce.

    Conventions of the model.
    - A JavaScript string is the list of its UTF-16 code units ([jsstring]).
    - A byte chunk travelling between two transformers is represented by the
      text it encodes.  [TextEncoder.encode] followed by a decoder gives the
      text back only when the text is well formed ([well_formed]: no
      surrogate without its partner, as when a pair is cut between two
      chunks; the encoder writes U+FFFD for it) and does not begin with
      U+FEFF (a decoder drops it at the start of what it decodes).  The
      transformers are modelled on such texts; a property that asserts the
      identity of a text a handler or a reader is given takes the condition
      as a hypothesis.
    - The upstream source is an asynchronous iterable of decoded chunks,
      given as the list of the chunks it yields before it closes.  (A
      [Response] goes through the event-stream parser of the [ai] package
      and then through the same extractor.)
    - A stream is consumed one chunk at a time; what a run does is recorded
      as the list of its observable events (callbacks invoked, chunks
      enqueued on the caller-visible stream), in the order in which they
      happen, together with the way the stream ended (closed, or failed with
      an exception).  A consumer that stops reading is [OpenAIStream_cancelled].
    - A chunk that a continuation stream enqueues reaches the caller-visible
      stream when the [flush] of the calling stream has read it, which is
      after the step that enqueued it has run to its end
      ([OpenAIStream_relayed]).
    - The callbacks that only observe ([onStart], [onToken], [onCompletion],
      [onFinal], [onChunk]) do not throw; the function-call handler may.
    - A callbacks object either has no [experimental_onFunctionCall] key or
      has a handler under it. *)

From Stdlib Require Import List NArith Bool Ascii Lia Arith.
From Stdlib Require String.
Import ListNotations String.StringSyntax.
Delimit Scope string_scope with string.
Local Open Scope N_scope.
Local Open Scope list_scope.

Set Warnings "-register-all,-notation-for-abbreviation".

(** ** JavaScript strings *)

Module JS.

Notation jsstring := (list N) (only parsing).

(** The code units of an ASCII literal. *)
Definition lit (s : String.string) : jsstring :=
  List.map N_of_ascii (String.list_ascii_of_string s).
Arguments lit s%_string.

(** Code units the source names. *)
Definition quote : N := 34.       (* the double quote *)
Definition backslash : N := 92.
Definition slash : N := 47.
Definition LF : N := 10.
Definition CR : N := 13.
Definition TAB : N := 9.
Definition FF : N := 12.
Definition BS : N := 8.

(** [quoted s] is [s] between two double quotes. *)
Definition quoted (s : jsstring) : jsstring := quote :: s ++ [quote].

Fixpoint eqb (a b : jsstring) : bool :=
  match a, b with
  | [], [] => true
  | x :: a', y :: b' => N.eqb x y && eqb a' b'
  | _, _ => false
  end.

(** Truthiness of a string: every string but the empty one. *)
Definition truthy (s : jsstring) : bool :=
  match s with [] => false | _ :: _ => true end.

(** [String.prototype.startsWith]. *)
Fixpoint startsWith (s prefix : jsstring) : bool :=
  match prefix, s with
  | [], _ => true
  | p :: prefix', c :: s' => N.eqb c p && startsWith s' prefix'
  | _ :: _, [] => false
  end.

(** [s.replace(/c/g, r)] for a one-character pattern [c]: every occurrence
    of [c] is replaced by [r], the other characters are kept. *)
Definition replace_all (c : N) (r : jsstring) (s : jsstring) : jsstring :=
  flat_map (fun x => if N.eqb x c then r else [x]) s.

(** White space and line terminators, as [String.prototype.trimStart]
    understands them. *)
Definition is_white_space (c : N) : bool :=
  (9 <=? c) && (c <=? 13)
  || N.eqb c 32 || N.eqb c 160 || N.eqb c 5760
  || (8192 <=? c) && (c <=? 8202)
  || N.eqb c 8232 || N.eqb c 8233 || N.eqb c 8239 || N.eqb c 8287
  || N.eqb c 12288 || N.eqb c 65279.

Fixpoint trimStart (s : jsstring) : jsstring :=
  match s with
  | c :: s' => if is_white_space c then trimStart s' else s
  | [] => []
  end.

(** Exceptions a run can end with. *)
Inductive exn : Type :=
| TypeError            (* property access on [undefined] or [null] *)
| SyntaxError          (* [JSON.parse] on text that is not JSON *)
| HandlerError.        (* the function-call handler threw or rejected *)

Inductive result (A : Type) : Type :=
| Ok (a : A)
| Throw (e : exn).
Arguments Ok {A} a.
Arguments Throw {A} e.

Definition bind {A B} (r : result A) (k : A -> result B) : result B :=
  match r with
  | Ok a => k a
  | Throw e => Throw e
  end.

End JS.

Import JS.

Notation "x <- r ;; k" := (JS.bind r (fun x => k))
  (at level 61, r at next level, right associativity).

(** ** JSON values, [JSON.parse] and [JSON.stringify] on strings *)

Module JSON.

(** A number is kept as the text it was written with: none of the code
    modelled here computes with numbers. *)
Inductive value : Type :=
| JNull
| JBool (b : bool)
| JNumber (lexeme : jsstring)
| JString (s : jsstring)
| JArray (elements : list value)
| JObject (members : list (jsstring * value)).

(** *** Reading *)

Definition is_ws (c : N) : bool :=
  N.eqb c 32 || N.eqb c 9 || N.eqb c 10 || N.eqb c 13.

Fixpoint skip_ws (s : jsstring) : jsstring :=
  match s with
  | c :: s' => if is_ws c then skip_ws s' else s
  | [] => []
  end.

Definition is_digit (c : N) : bool := (48 <=? c) && (c <=? 57).

Definition hex_digit (c : N) : option N :=
  if (48 <=? c) && (c <=? 57) then Some (c - 48)
  else if (65 <=? c) && (c <=? 70) then Some (c - 55)
  else if (97 <=? c) && (c <=? 102) then Some (c - 87)
  else None.

Definition hex4 (a b c d : N) : option N :=
  match hex_digit a, hex_digit b, hex_digit c, hex_digit d with
  | Some x, Some y, Some z, Some w => Some (((x * 16 + y) * 16 + z) * 16 + w)
  | _, _, _, _ => None
  end.

(** The character a two-character escape stands for. *)
Definition unescape (e : N) : option N :=
  if N.eqb e 34 then Some 34          (* quote *)
  else if N.eqb e 92 then Some 92     (* backslash *)
  else if N.eqb e 47 then Some 47     (* slash *)
  else if N.eqb e 98 then Some 8      (* b: backspace *)
  else if N.eqb e 102 then Some 12    (* f: form feed *)
  else if N.eqb e 110 then Some 10    (* n: line feed *)
  else if N.eqb e 114 then Some 13    (* r: carriage return *)
  else if N.eqb e 116 then Some 9     (* t: tab *)
  else None.

(** The characters of a string literal, read after its opening quote up to
    and including its closing quote; returns the string and the input left.
    A raw character below U+0020 is not allowed inside a literal. *)
Fixpoint string_chars (s : jsstring) : option (jsstring * jsstring) :=
  match s with
  | [] => None
  | c :: r =>
      if N.eqb c 34 then Some ([], r)
      else if N.eqb c 92 then
        match r with
        | [] => None
        | e :: r1 =>
            if N.eqb e 117 then      (* u and four hex digits *)
              match r1 with
              | h1 :: h2 :: h3 :: h4 :: r2 =>
                  match hex4 h1 h2 h3 h4 with
                  | Some u =>
                      match string_chars r2 with
                      | Some (t, rest) => Some (u :: t, rest)
                      | None => None
                      end
                  | None => None
                  end
              | _ => None
              end
            else
              match unescape e with
              | Some u =>
                  match string_chars r1 with
                  | Some (t, rest) => Some (u :: t, rest)
                  | None => None
                  end
              | None => None
              end
        end
      else if c <? 32 then None
      else
        match string_chars r with
        | Some (t, rest) => Some (c :: t, rest)
        | None => None
        end
  end.

Fixpoint digits (s : jsstring) : jsstring * jsstring :=
  match s with
  | c :: r =>
      if is_digit c then let (d, rest) := digits r in (c :: d, rest)
      else ([], s)
  | [] => ([], [])
  end.

(** A number: an optional minus sign; zero, or a non-zero digit and more
    digits; optionally a point and digits; optionally e or E, a sign and
    digits.  Returns the text of the number and the input left. *)
Definition number (s : jsstring) : option (jsstring * jsstring) :=
  let (sign, s1) :=
    match s with
    | c :: r => if N.eqb c 45 then ([c], r) else ([], s)
    | [] => ([], s)
    end in
  let int_part :=
    match s1 with
    | c :: r =>
        if N.eqb c 48 then Some ([c], r)
        else if is_digit c then let (d, rest) := digits r in Some (c :: d, rest)
        else None
    | [] => None
    end in
  match int_part with
  | None => None
  | Some (i, s2) =>
      let frac :=
        match s2 with
        | c :: r =>
            if N.eqb c 46 then
              match digits r with
              | ([], _) => None
              | (d, rest) => Some (c :: d, rest)
              end
            else Some ([], s2)
        | [] => Some ([], s2)
        end in
      match frac with
      | None => None
      | Some (f, s3) =>
          let expo :=
            match s3 with
            | c :: r =>
                if N.eqb c 101 || N.eqb c 69 then
                  let (sg, r1) :=
                    match r with
                    | x :: r' =>
                        if N.eqb x 43 || N.eqb x 45 then ([x], r') else ([], r)
                    | [] => ([], r)
                    end in
                  match digits r1 with
                  | ([], _) => None
                  | (d, rest) => Some (c :: sg ++ d, rest)
                  end
                else Some ([], s3)
            | [] => Some ([], s3)
            end in
          match expo with
          | None => None
          | Some (e, s4) => Some (sign ++ i ++ f ++ e, s4)
          end
      end
  end.

(** Values, array elements and object members.  The fuel bounds the depth of
    the calls; [parse] gives two units of it per input character, which is
    enough since every second call consumes a character. *)
Fixpoint value_ (fuel : nat) (s : jsstring) : option (value * jsstring) :=
  match fuel with
  | O => None
  | S n =>
      match skip_ws s with
      | [] => None
      | c :: r =>
          if N.eqb c 34 then
            match string_chars r with
            | Some (t, rest) => Some (JString t, rest)
            | None => None
            end
          else if N.eqb c 91 then                 (* [ *)
            match skip_ws r with
            | 93 :: rest => Some (JArray [], rest) (* ] *)
            | _ =>
                match elements_ n r with
                | Some (l, rest) => Some (JArray l, rest)
                | None => None
                end
            end
          else if N.eqb c 123 then                (* { *)
            match skip_ws r with
            | 125 :: rest => Some (JObject [], rest) (* } *)
            | _ =>
                match members_ n r with
                | Some (l, rest) => Some (JObject l, rest)
                | None => None
                end
            end
          else if startsWith (c :: r) (lit "null") then
            Some (JNull, skipn 4 (c :: r))
          else if startsWith (c :: r) (lit "true") then
            Some (JBool true, skipn 4 (c :: r))
          else if startsWith (c :: r) (lit "false") then
            Some (JBool false, skipn 5 (c :: r))
          else
            match number (c :: r) with
            | Some (lexeme, rest) => Some (JNumber lexeme, rest)
            | None => None
            end
      end
  end

with elements_ (fuel : nat) (s : jsstring) : option (list value * jsstring) :=
  match fuel with
  | O => None
  | S n =>
      match value_ n s with
      | None => None
      | Some (v, s1) =>
          match skip_ws s1 with
          | 93 :: rest => Some ([v], rest)         (* ] *)
          | 44 :: s2 =>                            (* , *)
              match elements_ n s2 with
              | Some (l, rest) => Some (v :: l, rest)
              | None => None
              end
          | _ => None
          end
      end
  end

with members_ (fuel : nat) (s : jsstring)
  : option (list (jsstring * value) * jsstring) :=
  match fuel with
  | O => None
  | S n =>
      match skip_ws s with
      | 34 :: s0 =>
          match string_chars s0 with
          | None => None
          | Some (k, s1) =>
              match skip_ws s1 with
              | 58 :: s2 =>                        (* : *)
                  match value_ n s2 with
                  | None => None
                  | Some (v, s3) =>
                      match skip_ws s3 with
                      | 125 :: rest => Some ([(k, v)], rest)   (* } *)
                      | 44 :: s4 =>
                          match members_ n s4 with
                          | Some (l, rest) => Some ((k, v) :: l, rest)
                          | None => None
                          end
                      | _ => None
                      end
                  end
              | _ => None
              end
          end
      | _ => None
      end
  end.

(** [JSON.parse(text)]: one value, white space around it, nothing else. *)
Definition parse (text : jsstring) : result value :=
  match value_ (2 * List.length text + 2) text with
  | Some (v, rest) =>
      match skip_ws rest with
      | [] => Ok v
      | _ :: _ => Throw SyntaxError
      end
  | None => Throw SyntaxError
  end.

(** *** Writing a string *)

Definition is_high_surrogate (c : N) : bool := (55296 <=? c) && (c <=? 56319).
Definition is_low_surrogate (c : N) : bool := (56320 <=? c) && (c <=? 57343).

Definition hex_char (d : N) : N := if d <? 10 then 48 + d else 87 + d.

(** The six-character escape of a code unit: backslash, u, four lower-case
    hexadecimal digits. *)
Definition unicode_escape (c : N) : jsstring :=
  [92; 117; hex_char (c / 4096 mod 16); hex_char (c / 256 mod 16);
   hex_char (c / 16 mod 16); hex_char (c mod 16)].

(** One character that is not part of a surrogate pair. *)
Definition quote_char (c : N) : jsstring :=
  if N.eqb c 8 then [92; 98]
  else if N.eqb c 9 then [92; 116]
  else if N.eqb c 10 then [92; 110]
  else if N.eqb c 12 then [92; 102]
  else if N.eqb c 13 then [92; 114]
  else if N.eqb c 34 then [92; 34]
  else if N.eqb c 92 then [92; 92]
  else if (c <? 32) || is_high_surrogate c || is_low_surrogate c
  then unicode_escape c
  else [c].

Fixpoint quote_chars (s : jsstring) : jsstring :=
  match s with
  | [] => []
  | c :: r =>
      if is_high_surrogate c then
        match r with
        | d :: r' =>
            if is_low_surrogate d then c :: d :: quote_chars r'
            else quote_char c ++ quote_chars r
        | [] => quote_char c
        end
      else quote_char c ++ quote_chars r
  end.

(** [JSON.stringify(s)] for a string [s]. *)
Definition stringify (s : jsstring) : jsstring :=
  34 :: quote_chars s ++ [34].

(** *** Parsed values as JavaScript values *)

(** A JavaScript value that came out of [JSON.parse], or [undefined]
    ([None]). *)
Notation jsvalue := (option value) (only parsing).

Fixpoint lookup (key : jsstring) (members : list (jsstring * value)) : jsvalue :=
  match members with
  | [] => None
  | (k, v) :: rest =>
      match lookup key rest with       (* a later member of the same name wins *)
      | Some v' => Some v'
      | None => if JS.eqb k key then Some v else None
      end
  end.

(** [v.key] for a key that is no built-in property: an exception on
    [undefined] and [null], the member of an object, [undefined] on
    anything else. *)
Definition get (v : jsvalue) (key : jsstring) : result jsvalue :=
  match v with
  | None => Throw TypeError
  | Some JNull => Throw TypeError
  | Some (JObject members) => Ok (lookup key members)
  | Some _ => Ok None
  end.

(** The number a run of decimal digits denotes. *)
Fixpoint digits_value (acc : N) (s : jsstring) : N :=
  match s with
  | [] => acc
  | c :: r => digits_value (10 * acc + (c - 48)) r
  end.

(** The text of a number taken apart: whether it has a minus sign, the
    digits before and after the point, whether the exponent has a minus
    sign, and the digits of the exponent. *)
Definition number_parts (lexeme : jsstring)
  : bool * jsstring * jsstring * bool * jsstring :=
  let (negative, s1) :=
    match lexeme with
    | c :: r => if N.eqb c 45 then (true, r) else (false, lexeme)
    | [] => (false, [])
    end in
  let (int_part, s2) := digits s1 in
  let (frac, s3) :=
    match s2 with
    | c :: r => if N.eqb c 46 then digits r else ([], s2)
    | [] => ([], [])
    end in
  match s3 with
  | _ :: x :: r =>
      if N.eqb x 45 then (negative, int_part, frac, true, fst (digits r))
      else if N.eqb x 43 then (negative, int_part, frac, false, fst (digits r))
      else (negative, int_part, frac, false, fst (digits (x :: r)))
  | _ => (negative, int_part, frac, false, [])
  end.

(** The magnitude of the number is [m * 10^up / 10^down]. *)
Definition magnitude (lexeme : jsstring) : N * N * N :=
  let '(_, int_part, frac, negative_exponent, exponent) := number_parts lexeme in
  let e := digits_value 0 exponent in
  (digits_value 0 (int_part ++ frac),
   (if negative_exponent then 0 else e),
   N.of_nat (List.length frac) + (if negative_exponent then e else 0)).

(** The number is read as an infinity: its magnitude is at least
    2^1024 - 2^970, half-way between the greatest double and 2^1024. *)
Definition is_infinite (lexeme : jsstring) : bool :=
  let '(m, up, down) := magnitude lexeme in
  (2 ^ 1024 - 2 ^ 970) * 10 ^ down <=? m * 10 ^ up.

(** The number is read as a zero: its magnitude is at most 2^-1075, half of
    the least double above zero. *)
Definition is_zero (lexeme : jsstring) : bool :=
  let '(m, up, down) := magnitude lexeme in
  m * 10 ^ up * 2 ^ 1075 <=? 10 ^ down.

Definition is_negative (lexeme : jsstring) : bool :=
  match lexeme with
  | c :: _ => N.eqb c 45
  | [] => false
  end.

(** [String(v)].  A number is kept as the text it was written with, and a
    finite number is printed as that text: JavaScript prints the double the
    text denotes, which reads back as the same double.  A text beyond the
    range of the doubles denotes an infinity, printed as a word, and a
    negative zero is printed without its sign. *)
Fixpoint toString (v : value) : jsstring :=
  match v with
  | JNull => lit "null"
  | JBool true => lit "true"
  | JBool false => lit "false"
  | JNumber lexeme =>
      if is_infinite lexeme
      then (if is_negative lexeme then lit "-Infinity" else lit "Infinity")
      else if is_negative lexeme && is_zero lexeme then lit "0"
      else lexeme
  | JString s => s
  | JArray elements =>
      (fix join (l : list value) : jsstring :=
         match l with
         | [] => []
         | x :: r =>
             match x with JNull => [] | _ => toString x end
               ++ match r with [] => [] | _ :: _ => 44 :: join r end
         end) elements
  | JObject _ => lit "[object Object]"
  end.

(** [JSON.parse(v)] for any value [v]: the argument is first converted to a
    string. *)
Definition parse_value (v : jsvalue) : result value :=
  match v with
  | None => parse (lit "undefined")
  | Some x => parse (toString x)
  end.

End JSON.

(** ** The stream line format *)

Inductive StreamStringPrefix : Type := text_ | function_call_ | data_.

Definition StreamStringPrefixes (type : StreamStringPrefix) : N :=
  match type with
  | text_ => 0
  | function_call_ => 1
  | data_ => 2
  end.

(** [getStreamString(type, value)] for a string [value]: the digit of the
    type, a colon, the JSON text of the value, a line feed. *)
Definition getStreamString (type : StreamStringPrefix) (value : jsstring)
  : jsstring :=
  (48 + StreamStringPrefixes type) :: lit ":" ++ JSON.stringify value ++ [LF].

(** ** Provider chunks

    [ChatCompletionChunk] and [Completion] with the fields the code reads.
    Every field may be missing, since a chunk is whatever the provider sent;
    [None] is a missing field. *)

Record FunctionCall : Type := {
  arguments : option jsstring;
  name : option jsstring
}.

(** [content?: string | null]. *)
Inductive Content : Type :=
| undefined
| null
| str (s : jsstring).

Record ChoiceDelta : Type := {
  content : Content;
  function_call : option FunctionCall
}.

(** A choice of either kind: a chat choice has [delta], a completion choice
    has [text]. *)
Record Choice : Type := {
  delta : option ChoiceDelta;
  text : option jsstring;
  finish_reason : option jsstring
}.

Record Chunk : Type := {
  choices : option (list Choice);
  conversation_id : option jsstring;
  parent_message_id : option jsstring
}.

(** Truthiness of an optional string: present and not empty. *)
Definition truthy_opt (o : option jsstring) : bool :=
  match o with
  | Some s => JS.truthy s
  | None => false
  end.

Definition truthy_content (c : Content) : bool :=
  match c with
  | str s => JS.truthy s
  | _ => false
  end.

(** The string of an optional string that is known to be there. *)
Definition string_of (o : option jsstring) : jsstring :=
  match o with
  | Some s => s
  | None => []
  end.

(** The text a template literal gives for a content. *)
Definition content_toString (c : Content) : jsstring :=
  match c with
  | undefined => lit "undefined"
  | null => lit "null"
  | str s => s
  end.

(** ['choices' in data && data.choices && data.choices[0] &&
    'delta' in data.choices[0]] *)
Definition isChatCompletionChunk (data : Chunk) : bool :=
  match choices data with
  | None => false
  | Some [] => false
  | Some (c0 :: _) =>
      match delta c0 with Some _ => true | None => false end
  end.

(** The same with ['text' in data.choices[0]]. *)
Definition isCompletion (data : Chunk) : bool :=
  match choices data with
  | None => false
  | Some [] => false
  | Some (c0 :: _) =>
      match text c0 with Some _ => true | None => false end
  end.

(** ** The text extractor: [chunkToText] *)

(** Modelled from the spec: [trimStartOfStreamHelper] is imported from the
    [ai] package and is not among the sources; section 4.2 describes it as
    the start-of-stream trim filter.  As in the package, while the stream is
    at its start the text is stripped of leading white space, and the start
    is over with the first text that is left non-empty. *)
Definition trimStartOfStream (isStreamStart : bool) (text : jsstring)
  : jsstring * bool :=
  if isStreamStart then
    let text := trimStart text in
    (text, if JS.truthy text then false else true)
  else (text, false).

Module Extractor.

(** The variables the closure returned by [chunkToText] holds. *)
Record state : Type := {
  isStreamStart : bool;              (* of [trimStartOfStream] *)
  isFunctionStreamingIn : bool
}.

Definition init : state :=
  {| isStreamStart := true; isFunctionStreamingIn := false |}.

End Extractor.

(** [json.choices[0]]: an exception when [choices] is missing, [undefined]
    when it is empty. *)
Definition choices_0 (json : Chunk) : result (option Choice) :=
  match choices json with
  | None => Throw TypeError
  | Some cs => Ok (hd_error cs)
  end.

(** [json.choices[0]?.delta?.function_call], read where
    [isChatCompletionChunk(json)] has held. *)
Definition delta_function_call (json : Chunk) : option FunctionCall :=
  match choices json with
  | Some (c0 :: _) =>
      match delta c0 with
      | Some d => function_call d
      | None => None
      end
  | _ => None
  end.

Definition function_call_name (json : Chunk) : option jsstring :=
  match delta_function_call json with
  | Some fc => name fc
  | None => None
  end.

Definition function_call_arguments (json : Chunk) : option jsstring :=
  match delta_function_call json with
  | Some fc => arguments fc
  | None => None
  end.

(** The seven replacements applied to an argument fragment, in the order of
    the source. *)
Definition escapePartialJson (argumentChunk : jsstring) : jsstring :=
  replace_all FF (backslash :: lit "f")
    (replace_all TAB (backslash :: lit "t")
      (replace_all CR (backslash :: lit "r")
        (replace_all LF (backslash :: lit "n")
          (replace_all quote [backslash; quote]
            (replace_all slash [backslash; slash]
              (replace_all backslash [backslash; backslash]
                argumentChunk)))))).

(** The opening of a function call: an object whose [arguments] string is
    left open. *)
Definition function_call_opening (fname : jsstring) : jsstring :=
  lit "{" ++ quoted (lit "function_call") ++ lit ": {"
    ++ quoted (lit "name") ++ lit ": " ++ quoted fname ++ lit ", "
    ++ quoted (lit "arguments") ++ lit ": " ++ [quote].

(** The closing of a function call: the quote that ends [arguments] and two
    braces. *)
Definition function_call_closing : jsstring := quote :: lit "}}".

(** The fragment appended to a content when both identifiers are there. *)
Definition side_channel (conversation parent : jsstring) : jsstring :=
  lit " {" ++ quoted (lit "conversation_id") ++ lit ":" ++ quoted conversation
    ++ lit "," ++ quoted (lit "parent_message_id") ++ lit ":" ++ quoted parent
    ++ lit "}".

(** [json.choices[0]?.finish_reason] is ['function_call'] or ['stop']. *)
Definition finish_reason_ends_call (c0 : option Choice) : bool :=
  match c0 with
  | Some c =>
      match finish_reason c with
      | Some r => JS.eqb r (lit "function_call") || JS.eqb r (lit "stop")
      | None => false
      end
  | None => false
  end.

(** [json.choices[0].delta.content] *)
Definition choices_0_delta_content (json : Chunk) : result Content :=
  c0 <- choices_0 json ;;
  match c0 with
  | None => Throw TypeError
  | Some c =>
      match delta c with
      | None => Throw TypeError
      | Some d => Ok (content d)
      end
  end.

(** [cp.choices[0].delta.content = content], on a chunk where
    [choices[0].delta] exists. *)
Definition set_content (cp : Chunk) (new_content : Content) : Chunk :=
  match choices cp with
  | Some (c0 :: rest) =>
      match delta c0 with
      | Some d =>
          {| choices :=
               Some ({| delta := Some {| content := new_content;
                                          function_call := function_call d |};
                        text := text c0;
                        finish_reason := finish_reason c0 |} :: rest);
             conversation_id := conversation_id cp;
             parent_message_id := parent_message_id cp |}
      | None => cp
      end
  | _ => cp
  end.

(** The argument of [trimStartOfStream]: the content of a chat chunk when it
    is a non-empty string, else the [text] of a completion, else nothing. *)
Definition text_of (cp : Chunk) : jsstring :=
  match choices cp with
  | Some (c0 :: _) =>
      let chat_content :=
        match delta c0 with
        | Some d => content d
        | None => undefined
        end in
      if isChatCompletionChunk cp && truthy_content chat_content
      then content_toString chat_content
      else if isCompletion cp
      then string_of (text c0)
      else []
  | _ => []
  end.

(** The last part of the extractor, reached when the chunk is no fragment
    of a function call and does not end one. *)
Definition plain_content (st : Extractor.state) (json : Chunk)
  : result (jsstring * Extractor.state) :=
  let cp := json in                  (* [JSON.parse(JSON.stringify(json))] *)
  new_content <-
    (if truthy_opt (conversation_id json) && truthy_opt (parent_message_id json)
     then
       c <- choices_0_delta_content json ;;
       Ok (str (content_toString c
                  ++ side_channel (string_of (conversation_id json))
                                  (string_of (parent_message_id json))))
     else choices_0_delta_content json) ;;
  let cp := set_content cp new_content in
  let (t, start) := trimStartOfStream (Extractor.isStreamStart st) (text_of cp) in
  Ok (t, {| Extractor.isStreamStart := start;
            Extractor.isFunctionStreamingIn :=
              Extractor.isFunctionStreamingIn st |}).

(** One call of the function [chunkToText] returns: the text of a chunk and
    the new state of the closure, or the exception thrown. *)
Definition chunkToText (st : Extractor.state) (json : Chunk)
  : result (jsstring * Extractor.state) :=
  if isChatCompletionChunk json && truthy_opt (function_call_name json) then
    Ok (function_call_opening (string_of (function_call_name json)),
        {| Extractor.isStreamStart := Extractor.isStreamStart st;
           Extractor.isFunctionStreamingIn := true |})
  else if isChatCompletionChunk json
          && truthy_opt (function_call_arguments json) then
    Ok (escapePartialJson (string_of (function_call_arguments json)), st)
  else
    ends <- (if Extractor.isFunctionStreamingIn st
             then c0 <- choices_0 json ;; Ok (finish_reason_ends_call c0)
             else Ok false) ;;
    if ends then
      Ok (function_call_closing,
          {| Extractor.isStreamStart := Extractor.isStreamStart st;
             Extractor.isFunctionStreamingIn := false |})
    else plain_content st json.

(** ** Messages, callbacks and events *)

Module Message.

Inductive Role : Type := system | user | assistant | function.

(** The content of a message: a text, or [JSON.stringify(result)] for the
    result the handler reported, which is kept as the value it prints. *)
Inductive MessageContent : Type :=
| Text (s : jsstring)
| Stringified (result : JSON.value).

Record CreateMessage : Type := {
  role : Role;
  content : MessageContent;
  name : JSON.jsvalue;
  function_call : JSON.jsvalue
}.

End Message.

(** What [experimental_onFunctionCall] resolves to. *)
Inductive FunctionResponse : Type :=
| Rejected                          (* the handler threw or rejected *)
| Nothing                           (* [undefined] *)
| Reply (s : jsstring)              (* a string *)
| Continuation (res : list Chunk).  (* a new upstream stream *)

(** One invocation of the handler: the result it last passed to
    [createFunctionCallMessages], if it called it, and what it returned. *)
Record HandlerOutcome : Type := {
  functionCallResult : option JSON.value;
  functionResponse : FunctionResponse
}.

(** The handler sees the payload, and through [createFunctionCallMessages]
    the messages of the earlier calls. *)
Definition Handler : Type :=
  JSON.jsvalue -> JSON.value -> list Message.CreateMessage -> HandlerOutcome.

(** [OpenAIStreamCallbacks].  A callback that only observes is modelled by
    whether it is registered; its invocations are events of the run.
    [experimental_onFunctionCall] is [None] for an object without that key
    (an object that has the key with no handler under it is not
    represented).  [internal_openai_fn_messages] is the field under the
    internal symbol. *)
Record OpenAIStreamCallbacks : Type := {
  onStart : bool;
  onToken : bool;
  onCompletion : bool;
  onFinal : bool;
  onChunk : bool;
  experimental_streamData : bool;
  experimental_onFunctionCall : option Handler;
  internal_openai_fn_messages : list Message.CreateMessage
}.

(** The calls of the callbacks. *)
Inductive Notification : Type :=
| Start
| ChunkSeen (chunk : Chunk)
| Token (token : jsstring)
| Completion (completion : jsstring)
| Final (completion : jsstring)
| Call (fname : JSON.jsvalue) (args : JSON.value)
       (messages : list Message.CreateMessage).

(** What a run does that can be observed: it calls a callback or enqueues a
    chunk on the caller-visible stream. *)
Inductive Event : Type :=
| Notify (n : Notification)
| Enqueue (chunk : jsstring).

(** What a stage of the pipeline does, in the order in which it does it: it
    calls a callback, or enqueues a text for the next transformer. *)
Inductive Item : Type :=
| Ev (n : Notification)
| Msg (message : jsstring).

(** How a stream ended: [None] closed, [Some e] failed with [e]. *)
Notation Ending := (option exn) (only parsing).

(** The chunks enqueued on the caller-visible stream, in order. *)
Fixpoint output (events : list Event) : list jsstring :=
  match events with
  | [] => []
  | Enqueue c :: rest => c :: output rest
  | _ :: rest => output rest
  end.

(** The texts [onFinal] was called with, in order. *)
Fixpoint finals (events : list Event) : list jsstring :=
  match events with
  | [] => []
  | Notify (Final t) :: rest => t :: finals rest
  | _ :: rest => finals rest
  end.

(** The texts handed to the next transformer, in order. *)
Fixpoint messages_of (items : list Item) : list jsstring :=
  match items with
  | [] => []
  | Msg m :: rest => m :: messages_of rest
  | Ev _ :: rest => messages_of rest
  end.

(** ** [streamable] *)

(** The generator: each chunk is extracted, shown to [cb], and its text is
    yielded when it is not empty.  An exception of the extractor ends the
    stream. *)
Fixpoint streamable_from (st : Extractor.state) (stream : list Chunk)
  (cb : bool) : list Item * Ending :=
  match stream with
  | [] => ([], None)
  | chunk :: rest =>
      match chunkToText st chunk with
      | Throw e => ([], Some e)
      | Ok (t, st') =>
          let (items, ending) := streamable_from st' rest cb in
          ((if cb then [Ev (ChunkSeen chunk)] else [])
             ++ (if JS.truthy t then [Msg t] else [])
             ++ items,
           ending)
      end
  end.

Definition streamable (stream : list Chunk) (cb : bool) : list Item * Ending :=
  streamable_from Extractor.init stream cb.

(** ** The transformers imported from the [ai] package *)

(** Modelled from the spec: [createCallbacksTransformer] is imported from the
    [ai] package and is not among the sources; it is the terminal callback
    driver of section 2.  As in the package: [onStart] when the stream
    starts; each message is enqueued for the next transformer and then shown
    to [onToken]; when the stream closes, [onCompletion] gets the whole
    text, and so does [onFinal] unless the callbacks have the key of the
    function-call handler.  Nothing is called when the stream fails. *)
Fixpoint callbacks_transform (callbacks : OpenAIStreamCallbacks)
  (aggregatedResponse : jsstring) (items : list Item) : list Item * jsstring :=
  match items with
  | [] => ([], aggregatedResponse)
  | Ev e :: rest =>
      let (out, all) := callbacks_transform callbacks aggregatedResponse rest in
      (Ev e :: out, all)
  | Msg message :: rest =>
      let (out, all) :=
        callbacks_transform callbacks (aggregatedResponse ++ message) rest in
      (Msg message
         :: (if onToken callbacks then [Ev (Token message)] else []) ++ out,
       all)
  end.

Definition callbacks_flush (callbacks : OpenAIStreamCallbacks)
  (aggregatedResponse : jsstring) : list Item :=
  (if onCompletion callbacks then [Ev (Completion aggregatedResponse)] else [])
    ++ (if onFinal callbacks
           && negb (match experimental_onFunctionCall callbacks with
                    | Some _ => true
                    | None => false
                    end)
        then [Ev (Final aggregatedResponse)] else []).

Definition createCallbacksTransformer (callbacks : OpenAIStreamCallbacks)
  (upstream : list Item * Ending) : list Item * Ending :=
  let (items, ending) := upstream in
  let (out, all) := callbacks_transform callbacks [] items in
  ((if onStart callbacks then [Ev Start] else [])
     ++ out
     ++ match ending with
        | None => callbacks_flush callbacks all
        | Some _ => []
        end,
   ending).

(** Modelled from the spec: [createStreamDataTransformer] is imported from
    the [ai] package and is not among the sources; it is the output
    multiplexer of section 4.4 for a stream without handler.  As in the
    package: every chunk is passed on as it is in raw mode; in the other
    mode it is decoded and enqueued as a text line. *)
Definition createStreamDataTransformer (experimental_streamData : bool)
  (item : Item) : Event :=
  match item with
  | Ev n => Notify n
  | Msg message =>
      Enqueue (if experimental_streamData
               then getStreamString text_ message
               else message)
  end.

(** ** The function-call transformer: [createFunctionCallTransformer] *)

Module Transformer.

(** The variables of the closure. *)
Record state : Type := {
  isFirstChunk : bool;
  aggregatedResponse : jsstring;
  aggregatedFinalCompletionResponse : jsstring;
  isFunctionStreamingIn : bool
}.

Definition init : state :=
  {| isFirstChunk := true;
     aggregatedResponse := [];
     aggregatedFinalCompletionResponse := [];
     isFunctionStreamingIn := false |}.

End Transformer.

Import Transformer.

(** The text a buffered function call starts with. *)
Definition function_call_marker : jsstring :=
  lit "{" ++ quoted (lit "function_call") ++ lit ":".

(** [transform(chunk, controller)]: what is enqueued and the new state. *)
Definition transform (callbacks : OpenAIStreamCallbacks) (st : state)
  (message : jsstring) : list Event * state :=
  let final := aggregatedFinalCompletionResponse st ++ message in
  let shouldHandleAsFunction :=
    isFirstChunk st && startsWith message function_call_marker in
  if shouldHandleAsFunction then
    ([], {| isFirstChunk := false;
            aggregatedResponse := aggregatedResponse st ++ message;
            aggregatedFinalCompletionResponse := final;
            isFunctionStreamingIn := true |})
  else if negb (isFunctionStreamingIn st) then
    ([Enqueue (if experimental_streamData callbacks
               then getStreamString text_ message
               else message)],
     {| isFirstChunk := isFirstChunk st;
        aggregatedResponse := aggregatedResponse st;
        aggregatedFinalCompletionResponse := final;
        isFunctionStreamingIn := isFunctionStreamingIn st |})
  else
    ([], {| isFirstChunk := isFirstChunk st;
            aggregatedResponse := aggregatedResponse st ++ message;
            aggregatedFinalCompletionResponse := final;
            isFunctionStreamingIn := isFunctionStreamingIn st |}).

(** The transformer fed with the items of the upstream stage. *)
Fixpoint transform_all (callbacks : OpenAIStreamCallbacks) (st : state)
  (items : list Item) : list Event * state :=
  match items with
  | [] => ([], st)
  | Ev n :: rest =>
      let (events, st') := transform_all callbacks st rest in
      (Notify n :: events, st')
  | Msg message :: rest =>
      let (enqueued, st1) := transform callbacks st message in
      let (events, st') := transform_all callbacks st1 rest in
      (enqueued ++ events, st')
  end.

(** [payload.function_call] *)
Definition payload_function_call (payload : JSON.value) : result JSON.jsvalue :=
  JSON.get (Some payload) (lit "function_call").

(** [JSON.parse(payload.function_call.arguments)] *)
Definition argumentsPayload (payload : JSON.value) : result JSON.value :=
  fc <- payload_function_call payload ;;
  args <- JSON.get fc (lit "arguments") ;;
  JSON.parse_value args.

(** The two calls of [JSON.parse] in [flush] and the parts of the payload
    the handler is given: [payload.function_call], its [name], and the
    parsed arguments. *)
Definition function_call_payload (st : state)
  : result (JSON.jsvalue * JSON.jsvalue * JSON.value) :=
  payload <- JSON.parse (aggregatedResponse st) ;;
  args <- argumentsPayload payload ;;
  fc <- payload_function_call payload ;;
  fname <- JSON.get fc (lit "name") ;;
  Ok (fc, fname, args).

(** The messages [createFunctionCallMessages(result)] builds. *)
Definition createFunctionCallMessages
  (functionCallMessages : list Message.CreateMessage)
  (fc fname : JSON.jsvalue) (result : JSON.value)
  : list Message.CreateMessage :=
  functionCallMessages
    ++ [ {| Message.role := Message.assistant;
            Message.content := Message.Text [];
            Message.name := None;
            Message.function_call := fc |};
         {| Message.role := Message.function;
            Message.content := Message.Stringified result;
            Message.name := fname;
            Message.function_call := None |} ].

(** The callbacks of the recursive call: those of the caller without
    [onStart], with the messages of this call. *)
Definition continuation_callbacks (callbacks : OpenAIStreamCallbacks)
  (newFunctionCallMessages : list Message.CreateMessage)
  : OpenAIStreamCallbacks :=
  {| onStart := false;
     onToken := onToken callbacks;
     onCompletion := onCompletion callbacks;
     onFinal := onFinal callbacks;
     onChunk := onChunk callbacks;
     experimental_streamData := experimental_streamData callbacks;
     experimental_onFunctionCall := experimental_onFunctionCall callbacks;
     internal_openai_fn_messages := newFunctionCallMessages |}.

(** [callbacks.onFinal = undefined] *)
Definition without_onFinal (callbacks : OpenAIStreamCallbacks)
  : OpenAIStreamCallbacks :=
  {| onStart := onStart callbacks;
     onToken := onToken callbacks;
     onCompletion := onCompletion callbacks;
     onFinal := false;
     onChunk := onChunk callbacks;
     experimental_streamData := experimental_streamData callbacks;
     experimental_onFunctionCall := experimental_onFunctionCall callbacks;
     internal_openai_fn_messages := internal_openai_fn_messages callbacks |}.

(** A run of [OpenAIStream]: its events and its ending, when it has one
    within the depth allowed. *)
Notation Run := (option (list Event * Ending)) (only parsing).

Section Flush.

(** Who reads the stream of this transformer: the caller ([false]), or the
    [flush] of a calling stream, which enqueues each chunk it reads on its
    own stream ([true]). *)
Variable relayed : bool.

(** The recursive call [OpenAIStream(functionResponse, ...)], its chunks
    read by this [flush]. *)
Variable OpenAIStream_rec : list Chunk -> OpenAIStreamCallbacks -> Run.

(** What the handler's answer leads to: the events of the continuation, the
    chunk [flush] itself enqueues, the callbacks object as the block leaves
    it, and how the block ends. *)
Definition respond (callbacks : OpenAIStreamCallbacks) (st : state)
  (fc fname : JSON.jsvalue) (outcome : HandlerOutcome)
  : option (list Event * list Event * OpenAIStreamCallbacks * Ending) :=
  let isComplexMode := experimental_streamData callbacks in
  let functionCallMessages := internal_openai_fn_messages callbacks in
  let newFunctionCallMessages :=
    match functionCallResult outcome with
    | Some result => createFunctionCallMessages functionCallMessages fc fname result
    | None => functionCallMessages
    end in
  match functionResponse outcome with
  | Rejected => Some ([], [], callbacks, Some HandlerError)
  | Nothing | Reply [] =>
      Some ([],
            [Enqueue (if isComplexMode
                      then getStreamString function_call_ (aggregatedResponse st)
                      else aggregatedResponse st)],
            callbacks, None)
  | Reply s =>
      Some ([],
            [Enqueue (if isComplexMode then getStreamString text_ s else s)],
            callbacks, None)
  | Continuation res =>
      let filteredCallbacks :=
        continuation_callbacks callbacks newFunctionCallMessages in
      match OpenAIStream_rec res filteredCallbacks with
      | Some (events, ending) =>
          (* every chunk read from the new stream is enqueued as it is *)
          Some (events, [], without_onFinal callbacks, ending)
      | None => None
      end
  end.

(** The [try] block of [flush]. *)
Definition flush_try (callbacks : OpenAIStreamCallbacks) (st : state)
  : option (list Event * list Event * OpenAIStreamCallbacks * Ending) :=
  match experimental_onFunctionCall callbacks with
  | Some handler =>
      if negb (isFirstChunk st) && isFunctionStreamingIn st then
        match function_call_payload st with
        | Throw e => Some ([], [], callbacks, Some e)
        | Ok (fc, fname, args) =>
            let functionCallMessages := internal_openai_fn_messages callbacks in
            match respond callbacks st fc fname
                    (handler fname args functionCallMessages) with
            | Some (events, enqueued, callbacks', ending) =>
                Some (Notify (Call fname args functionCallMessages) :: events,
                      enqueued, callbacks', ending)
            | None => None
            end
        end
      else Some ([], [], callbacks, None)
  | None => Some ([], [], callbacks, None)
  end.

(** The [finally] block of [flush]. *)
Definition flush_finally (callbacks : OpenAIStreamCallbacks) (st : state)
  : list Event :=
  if onFinal callbacks && JS.truthy (aggregatedFinalCompletionResponse st)
  then [Notify (Final (aggregatedFinalCompletionResponse st))]
  else [].

(** The end of [flush]: the chunk it has enqueued and the call of its
    [finally] block.  The block runs in the step that enqueues the chunk, so
    a calling stream reads the chunk, and enqueues it on the caller-visible
    stream, after the call. *)
Definition flush_end (enqueued notified : list Event) : list Event :=
  if relayed then notified ++ enqueued else enqueued ++ notified.

(** [flush(controller)] *)
Definition flush (callbacks : OpenAIStreamCallbacks) (st : state) : Run :=
  match flush_try callbacks st with
  | Some (events, enqueued, callbacks', ending) =>
      Some (events ++ flush_end enqueued (flush_finally callbacks' st), ending)
  | None => None
  end.

End Flush.

(** ** [OpenAIStream] *)

(** The callbacks handed to [createCallbacksTransformer]. *)
Definition upstream_callbacks (cb : OpenAIStreamCallbacks)
  : OpenAIStreamCallbacks :=
  match experimental_onFunctionCall cb with
  | Some _ => without_onFinal cb
  | None => cb
  end.

(** The stream before the last transformer. *)
Definition upstream (res : list Chunk) (cb : OpenAIStreamCallbacks)
  : list Item * Ending :=
  createCallbacksTransformer (upstream_callbacks cb) (streamable res (onChunk cb)).

(** The items of a stream in the order in which the [flush] of a calling
    stream sees them: the call of [onToken] belongs to the step that
    enqueues the message, and the calling stream reads what that step leads
    to after it. *)
Fixpoint relayed_items (items : list Item) : list Item :=
  match items with
  | [] => []
  | Ev n :: rest => Ev n :: relayed_items rest
  | Msg message :: rest =>
      match rest with
      | Ev (Token token) :: rest' =>
          Ev (Token token) :: Msg message :: relayed_items rest'
      | _ => Msg message :: relayed_items rest
      end
  end.

(** The body of [OpenAIStream(res, callbacks)] for an asynchronous iterable
    [res], run to the end of the stream. *)
Definition OpenAIStream_body (relayed : bool)
  (OpenAIStream_rec : list Chunk -> OpenAIStreamCallbacks -> Run)
  (res : list Chunk) (cb : OpenAIStreamCallbacks) : Run :=
  let (items, ending) := upstream res cb in
  match experimental_onFunctionCall cb with
  | Some _ =>
      let (events, st) :=
        transform_all cb Transformer.init
          (if relayed then relayed_items items else items) in
      match ending with
      | Some e => Some (events, Some e)
      | None =>
          match flush relayed OpenAIStream_rec cb st with
          | Some (events', ending') => Some (events ++ events', ending')
          | None => None
          end
      end
  | None =>
      Some (List.map
              (createStreamDataTransformer (experimental_streamData cb))
              (if relayed then relayed_items items else items),
            ending)
  end.

(** [OpenAIStream] called by [flush], which reads the stream and enqueues
    its chunks on the stream of the caller.  [depth] bounds the number of
    nested calls. *)
Fixpoint OpenAIStream_relayed (depth : nat) (res : list Chunk)
  (cb : OpenAIStreamCallbacks) : Run :=
  match depth with
  | O => None
  | S depth' => OpenAIStream_body true (OpenAIStream_relayed depth') res cb
  end.

(** [OpenAIStream(res, callbacks)], its stream read by the caller. *)
Definition OpenAIStream (depth : nat) (res : list Chunk)
  (cb : OpenAIStreamCallbacks) : Run :=
  match depth with
  | O => None
  | S depth' => OpenAIStream_body false (OpenAIStream_relayed depth') res cb
  end.

(** The consumer cancels the stream before its upstream has closed, when the
    pipeline has handled the first [n] items of the generator.  Neither
    transformer has a cancel step, and a cancelled transform stream does not
    run [flush]: the run is what the transformers did with those items. *)
Definition OpenAIStream_cancelled (n : nat) (res : list Chunk)
  (cb : OpenAIStreamCallbacks) : list Event :=
  let callbacks := upstream_callbacks cb in
  let items :=
    (if onStart callbacks then [Ev Start] else [])
      ++ fst (callbacks_transform callbacks []
                (firstn n (fst (streamable res (onChunk cb))))) in
  match experimental_onFunctionCall cb with
  | Some _ => fst (transform_all cb Transformer.init items)
  | None =>
      List.map (createStreamDataTransformer (experimental_streamData cb)) items
  end.

(** ** Chunks as the provider sends them *)

Definition chat_choice (d : ChoiceDelta) (reason : option jsstring) : Choice :=
  {| delta := Some d; text := None; finish_reason := reason |}.

Definition chat_chunk (d : ChoiceDelta) (reason : option jsstring) : Chunk :=
  {| choices := Some [chat_choice d reason];
     conversation_id := None;
     parent_message_id := None |}.

(** [{choices: [{delta: {content: s}}]}] *)
Definition content_chunk (s : jsstring) : Chunk :=
  chat_chunk {| content := str s; function_call := None |} None.

(** [{choices: [{delta: {function_call: {name: n}}}]}] *)
Definition name_chunk (n : jsstring) : Chunk :=
  chat_chunk {| content := undefined;
                function_call := Some {| arguments := None; name := Some n |} |}
             None.

(** [{choices: [{delta: {function_call: {arguments: a}}}]}] *)
Definition arguments_chunk (a : jsstring) : Chunk :=
  chat_chunk {| content := undefined;
                function_call := Some {| arguments := Some a; name := None |} |}
             None.

(** [{choices: [{delta: {}, finish_reason: r}]}] *)
Definition finish_chunk (r : jsstring) : Chunk :=
  chat_chunk {| content := undefined; function_call := None |} (Some r).

(** [{choices: [{text: t}]}], a completion chunk without [delta]. *)
Definition completion_chunk (t : jsstring) : Chunk :=
  {| choices := Some [ {| delta := None; text := Some t;
                          finish_reason := None |} ];
     conversation_id := None;
     parent_message_id := None |}.

(** Callbacks that observe the end of the run, without handler. *)
Definition final_only : OpenAIStreamCallbacks :=
  {| onStart := false; onToken := false; onCompletion := false;
     onFinal := true; onChunk := false;
     experimental_streamData := false;
     experimental_onFunctionCall := None;
     internal_openai_fn_messages := [] |}.

(** The same with a handler, in raw or in complex mode. *)
Definition with_handler (h : Handler) (complex : bool) : OpenAIStreamCallbacks :=
  {| onStart := false; onToken := false; onCompletion := false;
     onFinal := true; onChunk := false;
     experimental_streamData := complex;
     experimental_onFunctionCall := Some h;
     internal_openai_fn_messages := [] |}.

(** A handler that leaves the call to the client. *)
Definition decline : Handler :=
  fun _ _ _ => {| functionCallResult := None; functionResponse := Nothing |}.

(** A handler that answers the first call with a new stream and leaves any
    later call to the client. *)
Definition continue_once (res : list Chunk) : Handler :=
  fun _ _ messages =>
    match messages with
    | [] => {| functionCallResult := Some JSON.JNull;
               functionResponse := Continuation res |}
    | _ :: _ => {| functionCallResult := None; functionResponse := Nothing |}
    end.

(** A function call of [f] with the arguments [{}], as three chunks. *)
Definition call_f : list Chunk :=
  [name_chunk (lit "f"); arguments_chunk (lit "{}");
   finish_chunk (lit "function_call")].

(** A chunk that is neither a chat chunk nor a completion: one choice with
    nothing but a finish reason. *)
Definition bare_finish (r : jsstring) : Chunk :=
  {| choices := Some [ {| delta := None; text := None;
                          finish_reason := Some r |} ];
     conversation_id := None;
     parent_message_id := None |}.

(** ** Notions the properties are stated with *)

(** What one replacement after the other does to a single character. *)
Definition escape_char (c : N) : jsstring :=
  if N.eqb c backslash then [backslash; backslash]
  else if N.eqb c slash then [backslash; slash]
  else if N.eqb c quote then [backslash; quote]
  else if N.eqb c LF then backslash :: lit "n"
  else if N.eqb c CR then backslash :: lit "r"
  else if N.eqb c TAB then backslash :: lit "t"
  else if N.eqb c FF then backslash :: lit "f"
  else [c].

(** The characters the escaping leaves readable: every character from
    U+0020 on, and the four control characters it replaces. *)
Definition escapable (c : N) : bool :=
  (32 <=? c) || N.eqb c LF || N.eqb c CR || N.eqb c TAB || N.eqb c FF.





(** The first choice of a chunk, if it has one. *)
Definition first_choice (c : Chunk) : option Choice :=
  match choices c with
  | Some (c0 :: _) => Some c0
  | _ => None
  end.

(** The first choice of the chunk has no [delta]. *)
Definition lacks_delta (c : Chunk) : Prop :=
  exists c0 more, choices c = Some (c0 :: more) /\ delta c0 = None.

(** The extractor is streaming a function call and the chunk ends it. *)
Definition ends_call (st : Extractor.state) (c : Chunk) : bool :=
  Extractor.isFunctionStreamingIn st && finish_reason_ends_call (first_choice c).

(** A text event in the mode of the callbacks: the text itself in raw mode,
    a text line in complex mode. *)
Definition text_event (cb : OpenAIStreamCallbacks) (message : jsstring)
  : jsstring :=
  if experimental_streamData cb then getStreamString text_ message else message.

(** A function-call event in the mode of the callbacks. *)
Definition function_call_event (cb : OpenAIStreamCallbacks) (call : jsstring)
  : jsstring :=
  if experimental_streamData cb
  then getStreamString function_call_ call
  else call.

Definition is_call_start (message : jsstring) : bool :=
  startsWith message function_call_marker.

(** The messages before the first one that starts a function call. *)
Fixpoint before_call (msgs : list jsstring) : list jsstring :=
  match msgs with
  | [] => []
  | m :: rest => if is_call_start m then [] else m :: before_call rest
  end.

(** The first message that starts a function call and all that follow. *)
Fixpoint from_call (msgs : list jsstring) : list jsstring :=
  match msgs with
  | [] => []
  | m :: rest => if is_call_start m then m :: rest else from_call rest
  end.

(** The calls of callbacks among the items of a stream. *)
Fixpoint notifications (items : list Item) : list Event :=
  match items with
  | [] => []
  | Ev n :: rest => Notify n :: notifications rest
  | Msg _ :: rest => notifications rest
  end.

(** The callbacks given to the continuation of a call whose handler
    reported [outcome]. *)
Definition callbacks_after (callbacks : OpenAIStreamCallbacks)
  (fc fname : JSON.jsvalue) (outcome : HandlerOutcome) : OpenAIStreamCallbacks :=
  continuation_callbacks callbacks
    match functionCallResult outcome with
    | Some result =>
        createFunctionCallMessages (internal_openai_fn_messages callbacks)
          fc fname result
    | None => internal_openai_fn_messages callbacks
    end.

(** [flush] hands the stream over to a continuation: a handler is
    registered, a function call was buffered and reads as JSON, and the
    handler answers with a new stream. *)
Definition hands_over (callbacks : OpenAIStreamCallbacks) (st : state) : bool :=
  match experimental_onFunctionCall callbacks with
  | Some handler =>
      negb (isFirstChunk st) && isFunctionStreamingIn st
      && match function_call_payload st with
         | Ok (fc, fname, args) =>
             match functionResponse
                     (handler fname args (internal_openai_fn_messages callbacks))
             with
             | Continuation _ => true
             | _ => false
             end
         | Throw _ => false
         end
  | None => false
  end.

(** The terminal notification for the whole text of a stream: [onFinal] is
    called with it when it is registered and the text is not empty. *)
Definition terminal (callbacks : OpenAIStreamCallbacks) (whole : jsstring)
  : list Event :=
  if onFinal callbacks && JS.truthy whole then [Notify (Final whole)] else [].

(** The characters of a function name that the opening text, which does
    not escape the name, leaves readable. *)
Definition name_char (c : N) : bool :=
  (32 <=? c) && negb (N.eqb c quote) && negb (N.eqb c backslash).

(** The opening text before and after the name. *)
Definition opening_head : jsstring :=
  Eval vm_compute in
    lit "{" ++ quoted (lit "function_call") ++ lit ": {"
      ++ quoted (lit "name") ++ lit ": " ++ [quote].

Definition opening_tail : jsstring :=
  Eval vm_compute in
    quote :: lit ", " ++ quoted (lit "arguments") ++ lit ": " ++ [quote].

(** A function call as the provider streams it: the name, the fragments of
    the arguments, the finish reason. *)
Definition call_chunks (fname : jsstring) (fragments : list jsstring)
  : list Chunk :=
  name_chunk fname :: List.map arguments_chunk fragments
    ++ [finish_chunk (lit "function_call")].

(** The calls of the handler among the events of a run. *)
Fixpoint handler_calls (events : list Event) : list Event :=
  match events with
  | [] => []
  | Notify (Call f a m) :: rest => Notify (Call f a m) :: handler_calls rest
  | _ :: rest => handler_calls rest
  end.

(** The number of calls of [onStart] among the events of a run. *)
Fixpoint starts (events : list Event) : nat :=
  match events with
  | [] => O
  | Notify Start :: rest => S (starts rest)
  | _ :: rest => starts rest
  end.

(** The texts [onCompletion] was called with, in order. *)
Fixpoint completions (events : list Event) : list jsstring :=
  match events with
  | [] => []
  | Notify (Completion t) :: rest => t :: completions rest
  | _ :: rest => completions rest
  end.

(** A chunk of the caller-visible stream that is one line of the stream
    format, of the text or of the function-call kind. *)
Definition is_line (chunk : jsstring) : Prop :=
  exists value,
    chunk = getStreamString text_ value
    \/ chunk = getStreamString function_call_ value.

(** A handler that answers every call with the same string. *)
Definition reply_with (s : jsstring) : Handler :=
  fun _ _ _ => {| functionCallResult := None; functionResponse := Reply s |}.

(** A handler that throws. *)
Definition reject : Handler :=
  fun _ _ _ => {| functionCallResult := None; functionResponse := Rejected |}.

(** The object a buffered call reads as. *)
Definition call_object (fname arguments_text : jsstring) : JSON.value :=
  JSON.JObject [(lit "name", JSON.JString fname);
                (lit "arguments", JSON.JString arguments_text)].

(** The items of the upstream stage as the reader of the stream sees
    them. *)
Definition items_read (relayed : bool) (items : list Item) : list Item :=
  if relayed then relayed_items items else items.

(** The calls of callbacks among the events of a run, in order. *)
Fixpoint calls (events : list Event) : list Event :=
  match events with
  | [] => []
  | Notify n :: rest => Notify n :: calls rest
  | Enqueue _ :: rest => calls rest
  end.


Definition is_surrogate (c : N) : bool :=
  JSON.is_high_surrogate c || JSON.is_low_surrogate c.

(** A well-formed text: every surrogate is half of a pair. *)
Fixpoint well_formed (s : jsstring) : bool :=
  match s with
  | [] => true
  | c :: r =>
      if JSON.is_high_surrogate c then
        match r with
        | d :: r' => JSON.is_low_surrogate d && well_formed r'
        | [] => false
        end
      else negb (JSON.is_low_surrogate c) && well_formed r
  end.

(** [TextEncoder.encode], as the text its bytes decode to: a surrogate
    without its partner is written as U+FFFD. *)
Fixpoint TextEncoder_encode (s : jsstring) : jsstring :=
  match s with
  | [] => []
  | c :: r =>
      if JSON.is_high_surrogate c then
        match r with
        | d :: r' =>
            if JSON.is_low_surrogate d then c :: d :: TextEncoder_encode r'
            else 65533 :: TextEncoder_encode r
        | [] => [65533]
        end
      else if JSON.is_low_surrogate c then 65533 :: TextEncoder_encode r
      else c :: TextEncoder_encode r
  end.

Ltac decide_char x k :=
  destruct (N.eqb_spec x k) as [->|?]; [reflexivity|].

(* ================================================================== *)
(** * Properties *)

(** ** Strings *)

Lemma eqb_spec (a b : jsstring) : reflect (a = b) (JS.eqb a b).
Proof.
  revert b; induction a as [|x a IH]; intros [|y b]; simpl;
    try (constructor; congruence).
  destruct (N.eqb_spec x y) as [->|Hxy]; simpl.
  - destruct (IH b) as [->|Hab]; constructor; congruence.
  - constructor; congruence.
Qed.

Lemma replace_all_app (c : N) (r a b : jsstring) :
  replace_all c r (a ++ b) = replace_all c r a ++ replace_all c r b.
Proof. unfold replace_all. apply flat_map_app. Qed.

Lemma escapePartialJson_app (a b : jsstring) :
  escapePartialJson (a ++ b) = escapePartialJson a ++ escapePartialJson b.
Proof.
  unfold escapePartialJson. now rewrite !replace_all_app.
Qed.

Lemma escapePartialJson_char (x : N) :
  escapePartialJson [x] = escape_char x.
Proof.
  unfold escape_char, backslash, slash, quote, LF, CR, TAB, FF.
  decide_char x 92. decide_char x 47. decide_char x 34. decide_char x 10.
  decide_char x 13. decide_char x 9. decide_char x 12.
  unfold escapePartialJson, replace_all, backslash, slash, quote,
    LF, CR, TAB, FF; simpl.
  repeat match goal with
  | H : x <> ?k |- context [N.eqb x ?k] =>
      rewrite (proj2 (N.eqb_neq x k) H); simpl
  end.
  reflexivity.
Qed.

(** The seven replacements together replace each character on its own. *)
Lemma escapePartialJson_flat_map (s : jsstring) :
  escapePartialJson s = flat_map escape_char s.
Proof.
  induction s as [|x s IH]; [reflexivity|].
  change (x :: s) with ([x] ++ s).
  rewrite escapePartialJson_app, escapePartialJson_char, IH. reflexivity.
Qed.

(** ** Reading back an escaped string *)

Lemma string_chars_plain (c : N) (r : jsstring) :
  c <> 34 -> c <> 92 -> 32 <= c ->
  JSON.string_chars (c :: r) =
  match JSON.string_chars r with
  | Some (t, rest) => Some (c :: t, rest)
  | None => None
  end.
Proof.
  intros H34 H92 H32. simpl.
  rewrite (proj2 (N.eqb_neq c 34) H34), (proj2 (N.eqb_neq c 92) H92).
  destruct (N.ltb_spec c 32); [lia | reflexivity].
Qed.

Lemma string_chars_escape (e u : N) (r : jsstring) :
  e <> 117 -> JSON.unescape e = Some u ->
  JSON.string_chars (92 :: e :: r) =
  match JSON.string_chars r with
  | Some (t, rest) => Some (u :: t, rest)
  | None => None
  end.
Proof.
  intros H117 Hu. cbn [JSON.string_chars].
  change (N.eqb 92 34) with false. change (N.eqb 92 92) with true.
  cbv iota. rewrite (proj2 (N.eqb_neq e 117) H117), Hu. reflexivity.
Qed.

Lemma string_chars_escape_char (c : N) (r : jsstring) :
  escapable c = true ->
  JSON.string_chars (escape_char c ++ r) =
  match JSON.string_chars r with
  | Some (t, rest) => Some (c :: t, rest)
  | None => None
  end.
Proof.
  intros Hc. unfold escape_char, backslash, slash, quote, LF, CR, TAB, FF.
  destruct (N.eqb_spec c 92) as [->|H92];
    [now apply string_chars_escape|].
  destruct (N.eqb_spec c 47) as [->|H47];
    [now apply string_chars_escape|].
  destruct (N.eqb_spec c 34) as [->|H34];
    [now apply string_chars_escape|].
  destruct (N.eqb_spec c 10) as [->|H10];
    [now apply string_chars_escape|].
  destruct (N.eqb_spec c 13) as [->|H13];
    [now apply string_chars_escape|].
  destruct (N.eqb_spec c 9) as [->|H9];
    [now apply string_chars_escape|].
  destruct (N.eqb_spec c 12) as [->|H12];
    [now apply string_chars_escape|].
  apply string_chars_plain; trivial.
  unfold escapable, LF, CR, TAB, FF in Hc.
  rewrite (proj2 (N.eqb_neq c 10) H10), (proj2 (N.eqb_neq c 13) H13),
    (proj2 (N.eqb_neq c 9) H9), (proj2 (N.eqb_neq c 12) H12) in Hc.
  rewrite !orb_false_r in Hc. now apply N.leb_le.
Qed.

(** An escaped string followed by a quote reads back as the string. *)
Lemma string_chars_escaped (s rest : jsstring) :
  forallb escapable s = true ->
  JSON.string_chars (escapePartialJson s ++ quote :: rest) = Some (s, rest).
Proof.
  rewrite escapePartialJson_flat_map.
  induction s as [|c s IH]; intros Hs; [reflexivity|].
  simpl in Hs. apply andb_true_iff in Hs as [Hc Hs].
  cbn [flat_map]. rewrite <- app_assoc, string_chars_escape_char by trivial.
  now rewrite IH.
Qed.

Lemma parse_string_literal (body s : jsstring) :
  JSON.string_chars (body ++ [quote]) = Some (s, []) ->
  JSON.parse (quoted body) = Ok (JSON.JString s).
Proof.
  intros H. unfold JSON.parse, quoted.
  rewrite Nat.add_comm. cbn [Nat.add JSON.value_ JSON.skip_ws].
  unfold quote in *. change (JSON.is_ws 34) with false. cbv iota.
  change (N.eqb 34 34) with true. cbv iota. rewrite H. reflexivity.
Qed.

(** C2, as amended: for every argument string whose characters below U+0020
    are only line feed, carriage return, tab and form feed, the escaping of
    the text extractor followed by the parsing of the JSON string gives the
    string back. *)
Theorem escape_parse_roundtrip (s : jsstring) :
  forallb escapable s = true ->
  JSON.parse (quoted (escapePartialJson s)) = Ok (JSON.JString s).
Proof.
  intros Hs. apply parse_string_literal. now apply string_chars_escaped.
Qed.

Lemma escape_parse_roundtrip_witness :
  JSON.parse
    (quoted (escapePartialJson
               (lit "{" ++ quoted (lit "path") ++ lit ": "
                  ++ quoted (lit "C:" ++ [backslash] ++ lit "a/b")
                  ++ [LF; CR; TAB; FF] ++ lit "}")))
  = Ok (JSON.JString
          (lit "{" ++ quoted (lit "path") ++ lit ": "
             ++ quoted (lit "C:" ++ [backslash] ++ lit "a/b")
             ++ [LF; CR; TAB; FF] ++ lit "}")).
Proof.
  apply (escape_parse_roundtrip
           (lit "{" ++ quoted (lit "path") ++ lit ": "
              ++ quoted (lit "C:" ++ [backslash] ++ lit "a/b")
              ++ [LF; CR; TAB; FF] ++ lit "}")).
  reflexivity.
Defined.

(** C2, as stated, fails on a backspace: the escaping leaves it as it is,
    and a JSON string may not hold it. *)
Lemma escape_parse_backspace :
  escapePartialJson [BS] = [BS]
  /\ JSON.parse (quoted (escapePartialJson [BS])) = Throw SyntaxError
  /\ JSON.parse (quoted (escapePartialJson [BS])) <> Ok (JSON.JString [BS]).
Proof.
  repeat split; try reflexivity. vm_compute. discriminate.
Qed.

(** ** The extractor *)


Lemma chunkToText_closing (st : Extractor.state) (c : Chunk) :
  isChatCompletionChunk c = false ->
  ends_call st c = true ->
  chunkToText st c =
  Ok (function_call_closing,
      {| Extractor.isStreamStart := Extractor.isStreamStart st;
         Extractor.isFunctionStreamingIn := false |}).
Proof.
  unfold chunkToText, ends_call, first_choice, choices_0.
  intros -> H. apply andb_true_iff in H as [-> H]. simpl.
  destruct (choices c) as [[|c0 more]|]; simpl in *; try discriminate.
  now rewrite H.
Qed.

Lemma chunkToText_not_closing (st : Extractor.state) (c : Chunk) :
  isChatCompletionChunk c = false ->
  ends_call st c = false ->
  chunkToText st c = Throw TypeError.
Proof.
  unfold chunkToText, ends_call, first_choice, choices_0, plain_content,
    choices_0_delta_content, choices_0, isChatCompletionChunk.
  intros Hchat H.
  destruct (choices c) as [[|c0 more]|]; simpl in *.
  - destruct (Extractor.isFunctionStreamingIn st); simpl;
      destruct (truthy_opt (conversation_id c) && truthy_opt (parent_message_id c));
      reflexivity.
  - destruct (delta c0); [discriminate|]. simpl.
    destruct (Extractor.isFunctionStreamingIn st); simpl in *;
      rewrite ?H; simpl;
      destruct (truthy_opt (conversation_id c) && truthy_opt (parent_message_id c));
      reflexivity.
  - destruct (Extractor.isFunctionStreamingIn st); simpl; [reflexivity|].
    destruct (truthy_opt (conversation_id c) && truthy_opt (parent_message_id c));
      reflexivity.
Qed.

Lemma lacks_delta_not_chat (c : Chunk) :
  lacks_delta c -> isChatCompletionChunk c = false.
Proof.
  intros (c0 & more & Hc & Hd). unfold isChatCompletionChunk.
  now rewrite Hc, Hd.
Qed.

Lemma plain_content_needs_delta (st : Extractor.state) (c : Chunk)
  (r : jsstring * Extractor.state) :
  plain_content st c = Ok r ->
  exists c0 more d, choices c = Some (c0 :: more) /\ delta c0 = Some d.
Proof.
  unfold plain_content, choices_0_delta_content, choices_0.
  destruct (choices c) as [[|c0 more]|]; simpl;
    try (destruct (truthy_opt (conversation_id c)
                   && truthy_opt (parent_message_id c)); discriminate).
  destruct (delta c0) as [d|] eqn:Hd; simpl.
  - intros _. exists c0, more, d. split; [reflexivity | exact Hd].
  - destruct (truthy_opt (conversation_id c)
              && truthy_opt (parent_message_id c)); discriminate.
Qed.

(** C10: on a chunk whose first choice has no [delta] -- a completion chunk
    with only [text] among them -- the plain-content part of the extractor
    reads [choices[0].delta.content] and throws; the extractor throws
    unless it takes the chunk for the end of a function call, and never
    returns the [text]; the plain-content part, and with it the branch that
    returns [text], succeeds only on a chunk that has a [delta]. *)
Theorem legacy_chunk_throws (st : Extractor.state) (c : Chunk) :
  lacks_delta c ->
  plain_content st c = Throw TypeError
  /\ (ends_call st c = false -> chunkToText st c = Throw TypeError)
  /\ (forall t st', chunkToText st c = Ok (t, st') -> t = function_call_closing)
  /\ (forall t cb, streamable [completion_chunk t] cb = ([], Some TypeError))
  /\ (forall st1 c1 r, plain_content st1 c1 = Ok r ->
        exists c0 more d, choices c1 = Some (c0 :: more) /\ delta c0 = Some d).
Proof.
  intros Hc. pose proof (lacks_delta_not_chat c Hc) as Hchat.
  repeat split.
  - destruct Hc as (c0 & more & Hc & Hd).
    unfold plain_content, choices_0_delta_content, choices_0.
    rewrite Hc; simpl; rewrite Hd; simpl.
    destruct (truthy_opt (conversation_id c) && truthy_opt (parent_message_id c));
      reflexivity.
  - now apply chunkToText_not_closing.
  - intros t st' H. destruct (ends_call st c) eqn:He.
    + rewrite chunkToText_closing in H by trivial. congruence.
    + rewrite chunkToText_not_closing in H by trivial. discriminate.
  - intros st1 c1 r. apply plain_content_needs_delta.
Qed.

Lemma legacy_chunk_throws_witness :
  chunkToText Extractor.init (completion_chunk (lit "Hello")) = Throw TypeError.
Proof.
  refine (proj1 (proj2 (legacy_chunk_throws Extractor.init
                          (completion_chunk (lit "Hello")) _)) _).
  - unfold lacks_delta. eexists _, _. split; reflexivity.
  - reflexivity.
Defined.

Lemma streamable_from_throw (st : Extractor.state) (c : Chunk)
  (rest : list Chunk) (cb : bool) (e : exn) :
  chunkToText st c = Throw e ->
  streamable_from st (c :: rest) cb = ([], Some e).
Proof. intros H. simpl. now rewrite H. Qed.

(** A run read by the caller: the last transformer over the items of the
    upstream stage, in the order in which they come. *)
Lemma OpenAIStream_unfold (depth : nat) (res : list Chunk)
  (cb : OpenAIStreamCallbacks) :
  OpenAIStream (S depth) res cb =
  let (items, ending) := upstream res cb in
  match experimental_onFunctionCall cb with
  | Some _ =>
      let (events, st) := transform_all cb Transformer.init items in
      match ending with
      | Some e => Some (events, Some e)
      | None =>
          match flush false (OpenAIStream_relayed depth) cb st with
          | Some (events', ending') => Some (events ++ events', ending')
          | None => None
          end
      end
  | None =>
      Some (List.map
              (createStreamDataTransformer (experimental_streamData cb))
              items,
            ending)
  end.
Proof. reflexivity. Qed.

(** A failure of the extractor is the failure of the caller-visible
    stream. *)
Lemma OpenAIStream_upstream_failure (depth : nat) (res : list Chunk)
  (cb : OpenAIStreamCallbacks) (e : exn) :
  snd (streamable res (onChunk cb)) = Some e ->
  exists events, OpenAIStream (S depth) res cb = Some (events, Some e).
Proof.
  intros Hs. rewrite OpenAIStream_unfold. unfold upstream.
  destruct (streamable res (onChunk cb)) as [items ending]. simpl in Hs.
  subst ending.
  unfold createCallbacksTransformer.
  destruct (callbacks_transform (upstream_callbacks cb) [] items) as [out all].
  destruct (experimental_onFunctionCall cb).
  - destruct (transform_all cb Transformer.init _). eexists. reflexivity.
  - eexists. reflexivity.
Qed.

(** C6, as amended: an event that is neither a chat chunk nor a completion
    makes the extractor throw, and the stream fail at that event, unless the
    extractor is streaming a function call and the event has the finish
    reason [function_call] or [stop]: then it is taken for the end of the
    call and the closing text is returned.  It is never read as an empty
    text.  At the start of a stream it always fails, and the caller-visible
    stream fails with it. *)
Theorem unclassified_event (st : Extractor.state) (c : Chunk) :
  isChatCompletionChunk c = false ->
  isCompletion c = false ->
  chunkToText st c =
    (if ends_call st c
     then Ok (function_call_closing,
              {| Extractor.isStreamStart := Extractor.isStreamStart st;
                 Extractor.isFunctionStreamingIn := false |})
     else Throw TypeError)
  /\ (ends_call st c = false ->
      forall rest cb, streamable_from st (c :: rest) cb = ([], Some TypeError))
  /\ (forall rest cb, streamable (c :: rest) cb = ([], Some TypeError))
  /\ (forall depth rest cb,
        exists events,
          OpenAIStream (S depth) (c :: rest) cb = Some (events, Some TypeError)).
Proof.
  intros Hchat _.
  assert (Hstart : forall rest cb,
             streamable (c :: rest) cb = ([], Some TypeError)).
  { intros rest cb. apply streamable_from_throw.
    now apply chunkToText_not_closing. }
  repeat split.
  - destruct (ends_call st c) eqn:He.
    + now apply chunkToText_closing.
    + now apply chunkToText_not_closing.
  - intros He rest cb. apply streamable_from_throw.
    now apply chunkToText_not_closing.
  - exact Hstart.
  - intros depth rest cb. apply OpenAIStream_upstream_failure.
    now rewrite Hstart.
Qed.

Lemma unclassified_event_witness :
  streamable [bare_finish (lit "stop"); content_chunk (lit "Hi")] false
  = ([], Some TypeError).
Proof.
  refine (proj1 (proj2 (proj2 (unclassified_event Extractor.init
                                 (bare_finish (lit "stop")) _ _))) _ _);
    reflexivity.
Defined.

(** C6, as stated, fails once a function call is streaming in: the event
    below is neither a chat chunk nor a completion, and the extractor takes
    it for the end of the call; the stream closes without failure. *)
Lemma unclassified_event_closes_call :
  isChatCompletionChunk (bare_finish (lit "stop")) = false
  /\ isCompletion (bare_finish (lit "stop")) = false
  /\ streamable [name_chunk (lit "f"); bare_finish (lit "stop")] false
     = ([Msg (function_call_opening (lit "f")); Msg function_call_closing],
        None).
Proof. repeat split. Qed.






(** ** Plain text through the pipeline *)

Lemma messages_of_app (a b : list Item) :
  messages_of (a ++ b) = messages_of a ++ messages_of b.
Proof.
  induction a as [|[e|m] a IH]; simpl; [reflexivity | exact IH | now rewrite IH].
Qed.

Lemma output_app (a b : list Event) : output (a ++ b) = output a ++ output b.
Proof.
  induction a as [|e a IH]; [reflexivity|].
  destruct e; simpl; rewrite ?IH; reflexivity.
Qed.

Lemma finals_app (a b : list Event) : finals (a ++ b) = finals a ++ finals b.
Proof.
  induction a as [|e a IH]; [reflexivity|].
  destruct e as [[]|]; simpl; rewrite ?IH; reflexivity.
Qed.



Lemma messages_of_callbacks_transform (callbacks : OpenAIStreamCallbacks)
  (items : list Item) :
  forall aggregated,
  messages_of (fst (callbacks_transform callbacks aggregated items))
  = messages_of items.
Proof.
  induction items as [|[e|m] items IH]; intros aggregated; simpl.
  - reflexivity.
  - specialize (IH aggregated).
    destruct (callbacks_transform callbacks aggregated items). exact IH.
  - specialize (IH (aggregated ++ m)).
    destruct (callbacks_transform callbacks (aggregated ++ m) items).
    simpl in *. rewrite messages_of_app, IH.
    destruct (onToken callbacks); reflexivity.
Qed.

Lemma messages_of_createCallbacksTransformer
  (callbacks : OpenAIStreamCallbacks) (items : list Item) (ending : Ending) :
  messages_of (fst (createCallbacksTransformer callbacks (items, ending)))
  = messages_of items
  /\ snd (createCallbacksTransformer callbacks (items, ending)) = ending.
Proof.
  unfold createCallbacksTransformer.
  pose proof (messages_of_callbacks_transform callbacks items []) as H.
  destruct (callbacks_transform callbacks [] items) as [out all].
  simpl in *. split; [|reflexivity].
  rewrite !messages_of_app, H.
  assert (H1 : messages_of (if onStart callbacks then [Ev Start] else []) = [])
    by (destruct (onStart callbacks); reflexivity).
  assert (H2 : messages_of
                 match ending with
                 | Some _ => []
                 | None => callbacks_flush callbacks all
                 end = []).
  { destruct ending; [reflexivity|]. unfold callbacks_flush.
    destruct (onCompletion callbacks);
      destruct (onFinal callbacks
                && negb match experimental_onFunctionCall callbacks with
                        | Some _ => true
                        | None => false
                        end); reflexivity. }
  rewrite H1, H2, app_nil_r. reflexivity.
Qed.




(** ** The function-call transformer *)

(** While a function call is buffered, nothing is enqueued. *)
Lemma transform_all_buffering (cb : OpenAIStreamCallbacks) (items : list Item) :
  forall st,
  isFirstChunk st = false ->
  isFunctionStreamingIn st = true ->
  transform_all cb st items =
  (notifications items,
   {| isFirstChunk := false;
      aggregatedResponse := aggregatedResponse st ++ concat (messages_of items);
      aggregatedFinalCompletionResponse :=
        aggregatedFinalCompletionResponse st ++ concat (messages_of items);
      isFunctionStreamingIn := true |}).
Proof.
  induction items as [|[n|m] items IH]; intros [first agg final streaming];
    simpl; intros -> ->.
  - now rewrite !app_nil_r.
  - rewrite IH by reflexivity. reflexivity.
  - unfold transform. simpl. rewrite IH by reflexivity. simpl.
    now rewrite <- !app_assoc.
Qed.

Lemma output_notifications (items : list Item) :
  output (notifications items) = [].
Proof. induction items as [|[n|m] items IH]; simpl; trivial. Qed.

(** Before a function call starts, every message is enqueued as it comes;
    the first message that starts a call and all that follow are buffered. *)
Lemma transform_all_passthrough (cb : OpenAIStreamCallbacks)
  (items : list Item) :
  forall st,
  isFirstChunk st = true ->
  isFunctionStreamingIn st = false ->
  output (fst (transform_all cb st items))
  = List.map (text_event cb) (before_call (messages_of items))
  /\ aggregatedResponse (snd (transform_all cb st items))
     = aggregatedResponse st ++ concat (from_call (messages_of items))
  /\ aggregatedFinalCompletionResponse (snd (transform_all cb st items))
     = aggregatedFinalCompletionResponse st ++ concat (messages_of items)
  /\ isFunctionStreamingIn (snd (transform_all cb st items))
     = negb (isFirstChunk (snd (transform_all cb st items)))
  /\ isFirstChunk (snd (transform_all cb st items))
     = match from_call (messages_of items) with [] => true | _ :: _ => false end.
Proof.
  induction items as [|[n|m] items IH]; intros [first agg final streaming];
    simpl; intros -> ->.
  - now rewrite !app_nil_r.
  - specialize (IH {| isFirstChunk := true; aggregatedResponse := agg;
                      aggregatedFinalCompletionResponse := final;
                      isFunctionStreamingIn := false |} eq_refl eq_refl).
    destruct (transform_all cb _ items) as [events st']. exact IH.
  - unfold transform, is_call_start. simpl.
    destruct (startsWith m function_call_marker) eqn:Hm.
    + rewrite transform_all_buffering by reflexivity. simpl.
      rewrite output_notifications, <- !app_assoc. repeat split.
    + specialize (IH {| isFirstChunk := true; aggregatedResponse := agg;
                        aggregatedFinalCompletionResponse := final ++ m;
                        isFunctionStreamingIn := false |} eq_refl eq_refl).
      destruct (transform_all cb _ items) as [events st']. simpl in *.
      destruct IH as (H1 & H2 & H3 & H4 & H5). rewrite H1, H2, H3, H4, H5.
      rewrite <- !app_assoc. repeat split.
Qed.

Lemma before_call_app (pre : list jsstring) (m : jsstring)
  (post : list jsstring) :
  forallb (fun x => negb (is_call_start x)) pre = true ->
  is_call_start m = true ->
  before_call (pre ++ m :: post) = pre
  /\ from_call (pre ++ m :: post) = m :: post.
Proof.
  intros Hpre Hm. induction pre as [|x pre IH]; simpl.
  - now rewrite Hm.
  - simpl in Hpre. apply andb_true_iff in Hpre as [Hx Hpre].
    apply negb_true_iff in Hx. rewrite Hx.
    destruct (IH Hpre) as [-> ->]. split; reflexivity.
Qed.

Lemma before_call_all (msgs : list jsstring) :
  forallb (fun x => negb (is_call_start x)) msgs = true ->
  before_call msgs = msgs /\ from_call msgs = [].
Proof.
  induction msgs as [|x msgs IH]; simpl; intros H; [split; reflexivity|].
  apply andb_true_iff in H as [Hx H]. apply negb_true_iff in Hx. rewrite Hx.
  destruct (IH H) as [-> ->]. split; reflexivity.
Qed.

(** C5, as amended: the transformer starts buffering at the first message
    that begins with the function-call marker, whether or not it is the
    first message of the stream ([isFirstChunk] is cleared by nothing
    else): the messages before it are enqueued as they come, it and every
    message after it are buffered and not enqueued.  A stream without such
    a message is enqueued whole and nothing is buffered. *)
Theorem buffering_starts_at_first_call (cb : OpenAIStreamCallbacks)
  (items : list Item) (pre : list jsstring) :
  forallb (fun x => negb (is_call_start x)) pre = true ->
  (forall m post,
     is_call_start m = true ->
     messages_of items = pre ++ m :: post ->
     output (fst (transform_all cb Transformer.init items))
       = List.map (text_event cb) pre
     /\ aggregatedResponse (snd (transform_all cb Transformer.init items))
        = concat (m :: post)
     /\ isFunctionStreamingIn (snd (transform_all cb Transformer.init items))
        = true)
  /\ (messages_of items = pre ->
      output (fst (transform_all cb Transformer.init items))
        = List.map (text_event cb) pre
      /\ aggregatedResponse (snd (transform_all cb Transformer.init items)) = []
      /\ isFunctionStreamingIn (snd (transform_all cb Transformer.init items))
         = false).
Proof.
  intros Hpre.
  destruct (transform_all_passthrough cb items Transformer.init eq_refl eq_refl)
    as (H1 & H2 & _ & H4 & H5).
  split.
  - intros m post Hm Hitems. rewrite Hitems in *.
    destruct (before_call_app pre m post Hpre Hm) as [Hb Hf].
    rewrite Hb in H1. rewrite Hf in H2, H5. rewrite H4, H5. auto.
  - intros Hitems. rewrite Hitems in *.
    destruct (before_call_all pre Hpre) as [Hb Hf].
    rewrite Hb in H1. rewrite Hf in H2, H5. rewrite H4, H5. auto.
Qed.

Lemma buffering_starts_at_first_call_witness :
  output (fst (transform_all (with_handler decline false) Transformer.init
                 [Msg (lit "Hi"); Msg (function_call_opening (lit "f"));
                  Msg (lit "{}"); Msg function_call_closing]))
  = [lit "Hi"]
  /\ aggregatedResponse
       (snd (transform_all (with_handler decline false) Transformer.init
               [Msg (lit "Hi"); Msg (function_call_opening (lit "f"));
                Msg (lit "{}"); Msg function_call_closing]))
     = function_call_opening (lit "f") ++ lit "{}" ++ function_call_closing.
Proof.
  destruct (proj1 (buffering_starts_at_first_call (with_handler decline false)
                     [Msg (lit "Hi"); Msg (function_call_opening (lit "f"));
                      Msg (lit "{}"); Msg function_call_closing]
                     [lit "Hi"] eq_refl)
              (function_call_opening (lit "f"))
              [lit "{}"; function_call_closing] eq_refl eq_refl)
    as (H1 & H2 & _).
  split; [exact H1 | exact H2].
Defined.

(** C5, as stated, fails on a stream whose second message starts a function
    call: the first message is enqueued, the second is buffered instead of
    being enqueued. *)
Lemma later_call_is_buffered :
  is_call_start (lit "Hi") = false
  /\ transform_all (with_handler decline false) Transformer.init
       [Msg (lit "Hi"); Msg (function_call_opening (lit "f"))]
     = ([Enqueue (lit "Hi")],
        {| isFirstChunk := false;
           aggregatedResponse := function_call_opening (lit "f");
           aggregatedFinalCompletionResponse :=
             lit "Hi" ++ function_call_opening (lit "f");
           isFunctionStreamingIn := true |})
  /\ output (fst (transform_all (with_handler decline false) Transformer.init
                    [Msg (lit "Hi"); Msg (function_call_opening (lit "f"))]))
     <> [lit "Hi"; function_call_opening (lit "f")].
Proof. repeat split. discriminate. Qed.

(** ** A stream read by the [flush] of a calling stream *)

Lemma calls_app (a b : list Event) : calls (a ++ b) = calls a ++ calls b.
Proof.
  induction a as [|e a IH]; [reflexivity|].
  destruct e; simpl; rewrite ?IH; reflexivity.
Qed.


Lemma calls_transform (cb : OpenAIStreamCallbacks) (st : state)
  (m : jsstring) :
  calls (fst (transform cb st m)) = [].
Proof.
  unfold transform.
  destruct (isFirstChunk st && startsWith m function_call_marker);
    [|destruct (negb (isFunctionStreamingIn st))]; reflexivity.
Qed.

(** The cases of [relayed_items]. *)
Lemma relayed_items_cases (P : list Item -> list Item -> Prop) :
  P [] [] ->
  (forall n rest,
     P rest (relayed_items rest) ->
     P (Ev n :: rest) (Ev n :: relayed_items rest)) ->
  (forall m t rest,
     P rest (relayed_items rest) ->
     P (Msg m :: Ev (Token t) :: rest)
       (Ev (Token t) :: Msg m :: relayed_items rest)) ->
  (forall m rest,
     P rest (relayed_items rest) ->
     P (Msg m :: rest) (Msg m :: relayed_items rest)) ->
  forall items, P items (relayed_items items).
Proof.
  intros Hnil Hev Htoken Hmsg.
  assert (H : forall n items,
             (List.length items <= n)%nat -> P items (relayed_items items)).
  { induction n as [|n IH]; intros [|[e|m] rest] Hlen; simpl in Hlen;
      try exact Hnil; try lia.
    - apply Hev. apply IH. lia.
    - destruct rest as [|[[]|] rest'];
        try (apply (Hmsg m); apply IH; simpl in *; lia).
      apply Htoken. apply IH. simpl in *. lia. }
  intros items. exact (H (List.length items) items (le_n _)).
Qed.

Lemma messages_of_relayed_items (items : list Item) :
  messages_of (relayed_items items) = messages_of items.
Proof.
  apply (relayed_items_cases
           (fun items relayed => messages_of relayed = messages_of items));
    simpl; congruence.
Qed.

Lemma notifications_relayed_items (items : list Item) :
  notifications (relayed_items items) = notifications items.
Proof.
  apply (relayed_items_cases
           (fun items relayed => notifications relayed = notifications items));
    simpl; congruence.
Qed.

(** The transformer is left in the same state, has enqueued the same chunks
    in the same order, and the same callbacks have been called in the same
    order, whoever reads its stream. *)
Lemma transform_all_relayed_items (cb : OpenAIStreamCallbacks)
  (items : list Item) :
  forall st,
  snd (transform_all cb st (relayed_items items))
  = snd (transform_all cb st items)
  /\ output (fst (transform_all cb st (relayed_items items)))
     = output (fst (transform_all cb st items))
  /\ calls (fst (transform_all cb st (relayed_items items)))
     = calls (fst (transform_all cb st items)).
Proof.
  apply (relayed_items_cases
           (fun items relayed =>
              forall st,
                snd (transform_all cb st relayed)
                = snd (transform_all cb st items)
                /\ output (fst (transform_all cb st relayed))
                   = output (fst (transform_all cb st items))
                /\ calls (fst (transform_all cb st relayed))
                   = calls (fst (transform_all cb st items)))).
  - intros st. repeat split.
  - intros n rest IH st. specialize (IH st). simpl.
    destruct (transform_all cb st (relayed_items rest)) as [e1 s1].
    destruct (transform_all cb st rest) as [e2 s2].
    simpl in *. destruct IH as (-> & -> & ->). repeat split.
  - intros m t rest IH st. simpl.
    pose proof (calls_transform cb st m) as Hc.
    destruct (transform cb st m) as [enqueued st1]. specialize (IH st1).
    destruct (transform_all cb st1 (relayed_items rest)) as [e1 s1].
    destruct (transform_all cb st1 rest) as [e2 s2].
    simpl in *. destruct IH as (-> & Ho & Hcalls).
    rewrite !output_app, !calls_app, Hc, Ho, Hcalls. repeat split.
  - intros m rest IH st. simpl.
    destruct (transform cb st m) as [enqueued st1]. specialize (IH st1).
    destruct (transform_all cb st1 (relayed_items rest)) as [e1 s1].
    destruct (transform_all cb st1 rest) as [e2 s2].
    simpl in *. destruct IH as (-> & Ho & Hcalls).
    rewrite !output_app, !calls_app, Ho, Hcalls. repeat split.
Qed.


(** ** [flush] *)

Section FlushFacts.

Variable relayed : bool.
Variable rec : list Chunk -> OpenAIStreamCallbacks -> Run.
Variable cb : OpenAIStreamCallbacks.
Variable st : state.

Lemma flush_finally_without_onFinal :
  flush_finally (without_onFinal cb) st = [].
Proof. reflexivity. Qed.

Lemma finals_flush_finally :
  finals (flush_finally cb st)
  = if onFinal cb && JS.truthy (aggregatedFinalCompletionResponse st)
    then [aggregatedFinalCompletionResponse st] else [].
Proof.
  unfold flush_finally.
  destruct (onFinal cb && JS.truthy (aggregatedFinalCompletionResponse st));
    reflexivity.
Qed.

Lemma output_flush_finally : output (flush_finally cb st) = [].
Proof.
  unfold flush_finally.
  destruct (onFinal cb && JS.truthy (aggregatedFinalCompletionResponse st));
    reflexivity.
Qed.

Lemma flush_end_nothing (notified : list Event) :
  flush_end relayed [] notified = notified.
Proof. unfold flush_end. destruct relayed; [apply app_nil_r | reflexivity]. Qed.

(** Nothing was buffered: [flush] only runs its [finally] block. *)
Lemma flush_no_call :
  isFunctionStreamingIn st = false ->
  flush relayed rec cb st = Some (flush_finally cb st, None).
Proof.
  intros H. unfold flush, flush_try. rewrite H, andb_false_r.
  destruct (experimental_onFunctionCall cb); now rewrite flush_end_nothing.
Qed.

Variable handler : Handler.
Hypothesis registered : experimental_onFunctionCall cb = Some handler.
Hypothesis started : isFirstChunk st = false.
Hypothesis buffered : isFunctionStreamingIn st = true.

(** The buffered text does not read as a function call: the exception
    leaves [flush] through the [finally] block. *)
Lemma flush_parse_error (e : exn) :
  function_call_payload st = Throw e ->
  flush relayed rec cb st = Some (flush_finally cb st, Some e).
Proof.
  intros H. unfold flush, flush_try.
  rewrite registered, started, buffered, H. simpl.
  now rewrite flush_end_nothing.
Qed.

Variables fc fname : JSON.jsvalue.
Variable args : JSON.value.
Hypothesis complete : function_call_payload st = Ok (fc, fname, args).

Let messages := internal_openai_fn_messages cb.
Let outcome := handler fname args messages.
Let call := Notify (Call fname args messages).

Lemma flush_rejected :
  functionResponse outcome = Rejected ->
  flush relayed rec cb st = Some (call :: flush_finally cb st, Some HandlerError).
Proof.
  intros H. unfold flush, flush_try, respond.
  rewrite registered, started, buffered, complete. simpl.
  fold messages. fold outcome. rewrite H. simpl.
  now rewrite flush_end_nothing.
Qed.

(** The handler leaves the call to the client: the buffered text is
    enqueued as a function-call event. *)
Lemma flush_declined :
  functionResponse outcome = Nothing \/ functionResponse outcome = Reply [] ->
  flush relayed rec cb st =
  Some (call :: flush_end relayed
                  [Enqueue (function_call_event cb (aggregatedResponse st))]
                  (flush_finally cb st), None).
Proof.
  intros H. unfold flush, flush_try, respond.
  rewrite registered, started, buffered, complete. simpl.
  fold messages. fold outcome. destruct H as [-> | ->]; reflexivity.
Qed.

Lemma flush_reply (s : jsstring) :
  s <> [] ->
  functionResponse outcome = Reply s ->
  flush relayed rec cb st =
  Some (call :: flush_end relayed [Enqueue (text_event cb s)]
                  (flush_finally cb st), None).
Proof.
  intros Hs H. unfold flush, flush_try, respond.
  rewrite registered, started, buffered, complete. simpl.
  fold messages. fold outcome. rewrite H.
  destruct s; [congruence | reflexivity].
Qed.

(** The handler answers with a new stream: its run is relayed, and the
    notification of this transformer is cancelled. *)
Lemma flush_continuation (res : list Chunk) :
  functionResponse outcome = Continuation res ->
  flush relayed rec cb st =
  match rec res (callbacks_after cb fc fname outcome) with
  | Some (nested, ending) => Some (call :: nested, ending)
  | None => None
  end.
Proof.
  intros H. unfold flush, flush_try, respond, callbacks_after.
  rewrite registered, started, buffered, complete. simpl.
  fold messages. fold outcome. rewrite H.
  destruct (rec res _) as [[nested ending]|]; [|reflexivity].
  now rewrite flush_finally_without_onFinal, flush_end_nothing, app_nil_r.
Qed.

End FlushFacts.


(** Whenever [flush] does not hand over to a continuation, it ends with the
    chunk it enqueues, if any, and its [finally] block, and notifies the end
    nowhere else. *)
Lemma flush_final (relayed : bool)
  (rec : list Chunk -> OpenAIStreamCallbacks -> Run)
  (cb : OpenAIStreamCallbacks) (st : state) :
  isFunctionStreamingIn st = negb (isFirstChunk st) ->
  hands_over cb st = false ->
  exists events enqueued ending,
    flush relayed rec cb st
    = Some (events ++ flush_end relayed enqueued (flush_finally cb st), ending)
    /\ finals events = []
    /\ output events = []
    /\ (enqueued = [] \/ exists chunk, enqueued = [Enqueue chunk])
    /\ (isFunctionStreamingIn st = false ->
        events = [] /\ enqueued = [] /\ ending = None).
Proof.
  intros Hinv Hno.
  destruct (isFunctionStreamingIn st) eqn:Hs.
  - assert (Hf : isFirstChunk st = false)
      by (destruct (isFirstChunk st); [discriminate | reflexivity]).
    unfold hands_over in Hno. rewrite Hf, Hs in Hno.
    destruct (experimental_onFunctionCall cb) as [h|] eqn:Hh.
    + destruct (function_call_payload st) as [[[fc fname] args]|e] eqn:Hp.
      * simpl in Hno.
        destruct (functionResponse
                    (h fname args (internal_openai_fn_messages cb)))
          as [| |s|res] eqn:Hr; try discriminate.
        -- eexists [_], [], _.
           rewrite (flush_rejected relayed rec cb st h Hh Hf Hs
                      fc fname args Hp Hr), flush_end_nothing.
           repeat split; try discriminate. now left.
        -- eexists [_], [_], _.
           rewrite (flush_declined relayed rec cb st h Hh Hf Hs
                      fc fname args Hp (or_introl Hr)).
           repeat split; try discriminate. right. now eexists.
        -- destruct s as [|c s].
           ++ eexists [_], [_], _.
              rewrite (flush_declined relayed rec cb st h Hh Hf Hs
                         fc fname args Hp (or_intror Hr)).
              repeat split; try discriminate. right. now eexists.
           ++ eexists [_], [_], _.
              rewrite (flush_reply relayed rec cb st h Hh Hf Hs
                         fc fname args Hp (c :: s) ltac:(discriminate) Hr).
              repeat split; try discriminate. right. now eexists.
      * exists [], [], (Some e).
        rewrite (flush_parse_error relayed rec cb st h Hh Hf Hs e Hp),
          flush_end_nothing.
        repeat split; try discriminate. now left.
    + exists [], [], None. unfold flush, flush_try. rewrite Hh.
      repeat split; try discriminate. now left.
  - exists [], [], None. rewrite (flush_no_call relayed rec cb st Hs),
      flush_end_nothing.
    repeat split. now left.
Qed.

(** ** Runs with a handler *)

Lemma notifications_app (a b : list Item) :
  notifications (a ++ b) = notifications a ++ notifications b.
Proof.
  induction a as [|[n|m] a IH]; simpl; rewrite ?IH; reflexivity.
Qed.

Lemma finals_transform_all (cb : OpenAIStreamCallbacks) (items : list Item) :
  forall st,
  finals (fst (transform_all cb st items)) = finals (notifications items).
Proof.
  induction items as [|[n|m] items IH]; intros st; simpl.
  - reflexivity.
  - specialize (IH st). destruct (transform_all cb st items) as [events st'].
    simpl in *. destruct n; rewrite ?IH; reflexivity.
  - destruct (transform cb st m) as [enqueued st1] eqn:Ht.
    specialize (IH st1).
    destruct (transform_all cb st1 items) as [events st'].
    simpl in *. rewrite finals_app, IH.
    unfold transform in Ht.
    destruct (isFirstChunk st && startsWith m function_call_marker);
      [|destruct (negb (isFunctionStreamingIn st))];
      injection Ht as <- _; reflexivity.
Qed.

Lemma streamable_no_final (chunks : list Chunk) (cb : bool) :
  forall st, finals (notifications (fst (streamable_from st chunks cb))) = [].
Proof.
  induction chunks as [|c chunks IH]; intros st; simpl; [reflexivity|].
  destruct (chunkToText st c) as [[t st']|e]; [|reflexivity].
  specialize (IH st'). destruct (streamable_from st' chunks cb) as [items ending].
  simpl in *. rewrite !notifications_app, !finals_app, IH.
  destruct cb; destruct (JS.truthy t); reflexivity.
Qed.

Lemma callbacks_transform_no_final (callbacks : OpenAIStreamCallbacks)
  (items : list Item) :
  forall aggregated,
  finals (notifications (fst (callbacks_transform callbacks aggregated items)))
  = finals (notifications items).
Proof.
  induction items as [|[n|m] items IH]; intros aggregated; simpl.
  - reflexivity.
  - specialize (IH aggregated).
    destruct (callbacks_transform callbacks aggregated items) as [out all].
    simpl in *. destruct n; rewrite ?IH; reflexivity.
  - specialize (IH (aggregated ++ m)).
    destruct (callbacks_transform callbacks (aggregated ++ m) items)
      as [out all].
    simpl in *. rewrite notifications_app, finals_app, IH.
    destruct (onToken callbacks); reflexivity.
Qed.

(** With a handler registered, the stages before the transformer never call
    [onFinal]. *)
Lemma upstream_no_final (res : list Chunk) (cb : OpenAIStreamCallbacks)
  (h : Handler) :
  experimental_onFunctionCall cb = Some h ->
  finals (notifications (fst (upstream res cb))) = [].
Proof.
  intros Hh. unfold upstream, upstream_callbacks, streamable,
    createCallbacksTransformer. rewrite Hh.
  pose proof (streamable_no_final res (onChunk cb) Extractor.init) as Hs.
  destruct (streamable_from Extractor.init res (onChunk cb)) as [items ending].
  pose proof (callbacks_transform_no_final (without_onFinal cb) items [])
    as Hc.
  destruct (callbacks_transform (without_onFinal cb) [] items) as [out all].
  simpl in *. rewrite !notifications_app, !finals_app, Hc, Hs.
  destruct (onStart cb); destruct ending; simpl;
    try reflexivity; unfold callbacks_flush; simpl;
    destruct (onCompletion cb); reflexivity.
Qed.

(** A run with a handler: the transformer over the upstream items, then
    [flush]. *)
Lemma OpenAIStream_body_with_handler (relayed : bool)
  (rec : list Chunk -> OpenAIStreamCallbacks -> Run) (res : list Chunk)
  (cb : OpenAIStreamCallbacks) (h : Handler) (items : list Item) :
  experimental_onFunctionCall cb = Some h ->
  upstream res cb = (items, None) ->
  OpenAIStream_body relayed rec res cb =
  match flush relayed rec cb (snd (transform_all cb Transformer.init items)) with
  | Some (events', ending) =>
      Some (fst (transform_all cb Transformer.init (items_read relayed items))
              ++ events', ending)
  | None => None
  end.
Proof.
  intros Hh Hup. unfold OpenAIStream_body, items_read. rewrite Hup, Hh.
  destruct relayed.
  - destruct (transform_all_relayed_items cb items Transformer.init)
      as (Hst & _).
    destruct (transform_all cb Transformer.init (relayed_items items))
      as [events st].
    simpl in Hst. now rewrite Hst.
  - destruct (transform_all cb Transformer.init items) as [events st].
    reflexivity.
Qed.

Lemma OpenAIStream_with_handler (depth : nat) (res : list Chunk)
  (cb : OpenAIStreamCallbacks) (h : Handler) (items : list Item) :
  experimental_onFunctionCall cb = Some h ->
  upstream res cb = (items, None) ->
  OpenAIStream (S depth) res cb =
  match flush false (OpenAIStream_relayed depth) cb
          (snd (transform_all cb Transformer.init items)) with
  | Some (events', ending) =>
      Some (fst (transform_all cb Transformer.init items) ++ events', ending)
  | None => None
  end.
Proof.
  exact (OpenAIStream_body_with_handler false (OpenAIStream_relayed depth)
           res cb h items).
Qed.

(** What the transformer has done and holds when the upstream closes. *)
Lemma transformer_at_flush (cb : OpenAIStreamCallbacks) (items : list Item) :
  let events := fst (transform_all cb Transformer.init items) in
  let st := snd (transform_all cb Transformer.init items) in
  output events = List.map (text_event cb) (before_call (messages_of items))
  /\ aggregatedResponse st = concat (from_call (messages_of items))
  /\ aggregatedFinalCompletionResponse st = concat (messages_of items)
  /\ isFunctionStreamingIn st = negb (isFirstChunk st).
Proof.
  destruct (transform_all_passthrough cb items Transformer.init eq_refl eq_refl)
    as (H1 & H2 & H3 & H4 & _).
  auto.
Qed.

Lemma flush_finally_terminal (cb : OpenAIStreamCallbacks) (items : list Item) :
  flush_finally cb (snd (transform_all cb Transformer.init items))
  = terminal cb (concat (messages_of items)).
Proof.
  unfold flush_finally, terminal.
  destruct (transformer_at_flush cb items) as (_ & _ & -> & _). reflexivity.
Qed.

Lemma started_when_buffered (cb : OpenAIStreamCallbacks) (items : list Item) :
  isFunctionStreamingIn (snd (transform_all cb Transformer.init items)) = true ->
  isFirstChunk (snd (transform_all cb Transformer.init items)) = false.
Proof.
  intros Hs. destruct (transformer_at_flush cb items) as (_ & _ & _ & Hinv).
  rewrite Hs in Hinv.
  destruct (isFirstChunk (snd (transform_all cb Transformer.init items)));
    [discriminate | reflexivity].
Qed.

(** With a handler registered, the transformer calls [onFinal] nowhere
    before [flush], whoever reads its stream. *)
Lemma finals_before_flush (relayed : bool) (res : list Chunk)
  (cb : OpenAIStreamCallbacks) (h : Handler) (items : list Item)
  (ending : Ending) :
  experimental_onFunctionCall cb = Some h ->
  upstream res cb = (items, ending) ->
  finals (fst (transform_all cb Transformer.init (items_read relayed items)))
  = [].
Proof.
  intros Hh Hup. rewrite finals_transform_all.
  assert (Hn : notifications (items_read relayed items) = notifications items)
    by (destruct relayed; [apply notifications_relayed_items | reflexivity]).
  rewrite Hn. replace items with (fst (upstream res cb)) by now rewrite Hup.
  exact (upstream_no_final res cb h Hh).
Qed.

(** A run that does not hand over to a continuation ends with the chunk its
    [flush] enqueues, if any, and the terminal notification for the whole
    text of its stream, and notifies the end nowhere else.  The chunk comes
    before the notification when the caller reads the stream, and after it
    when a calling stream does. *)
Lemma OpenAIStream_body_final (relayed : bool)
  (rec : list Chunk -> OpenAIStreamCallbacks -> Run) (res : list Chunk)
  (cb : OpenAIStreamCallbacks) (h : Handler) (items : list Item) :
  experimental_onFunctionCall cb = Some h ->
  upstream res cb = (items, None) ->
  hands_over cb (snd (transform_all cb Transformer.init items)) = false ->
  exists flushed enqueued ending,
    OpenAIStream_body relayed rec res cb
    = Some (fst (transform_all cb Transformer.init (items_read relayed items))
              ++ flushed
              ++ flush_end relayed enqueued
                   (terminal cb (concat (messages_of items))),
            ending)
    /\ finals (fst (transform_all cb Transformer.init
                      (items_read relayed items)) ++ flushed) = []
    /\ (enqueued = [] \/ exists chunk, enqueued = [Enqueue chunk])
    /\ (isFunctionStreamingIn (snd (transform_all cb Transformer.init items))
        = false ->
        flushed = [] /\ enqueued = [] /\ ending = None).
Proof.
  intros Hh Hup Hno.
  rewrite (OpenAIStream_body_with_handler relayed rec res cb h items Hh Hup).
  destruct (transformer_at_flush cb items) as (_ & _ & _ & Hinv).
  destruct (flush_final relayed rec cb _ Hinv Hno)
    as (events & enqueued & ending & -> & Hfin & _ & Henq & Hplain).
  rewrite flush_finally_terminal.
  exists events, enqueued, ending. split; [reflexivity|].
  split; [|split; assumption].
  now rewrite finals_app, Hfin, (finals_before_flush relayed res cb h items None).
Qed.

Lemma run_final (depth : nat) (res : list Chunk) (cb : OpenAIStreamCallbacks)
  (h : Handler) (items : list Item) :
  experimental_onFunctionCall cb = Some h ->
  upstream res cb = (items, None) ->
  hands_over cb (snd (transform_all cb Transformer.init items)) = false ->
  exists flushed ending,
    OpenAIStream (S depth) res cb
    = Some (fst (transform_all cb Transformer.init items) ++ flushed
              ++ terminal cb (concat (messages_of items)), ending)
    /\ finals (fst (transform_all cb Transformer.init items) ++ flushed) = [].
Proof.
  intros Hh Hup Hno.
  destruct (OpenAIStream_body_final false (OpenAIStream_relayed depth)
              res cb h items Hh Hup Hno)
    as (flushed & enqueued & ending & Hrun & Hfin & Henq & _).
  exists (flushed ++ enqueued), ending. split.
  - change (OpenAIStream (S depth) res cb)
      with (OpenAIStream_body false (OpenAIStream_relayed depth) res cb).
    rewrite Hrun. unfold flush_end, items_read. now rewrite <- !app_assoc.
  - unfold items_read in Hfin. rewrite app_assoc, finals_app, Hfin.
    destruct Henq as [-> | [chunk ->]]; reflexivity.
Qed.

(** ** A consumer that cancels *)

Lemma finals_firstn (n : nat) (items : list Item) :
  finals (notifications items) = [] ->
  finals (notifications (firstn n items)) = [].
Proof.
  revert n. induction items as [|[e|m] items IH]; intros [|n]; simpl;
    try reflexivity.
  - destruct e; simpl; try discriminate; intros H; now apply IH.
  - intros H. now apply IH.
Qed.

Lemma finals_stream_data (flag : bool) (items : list Item) :
  finals (List.map (createStreamDataTransformer flag) items)
  = finals (notifications items).
Proof.
  induction items as [|[n|m] items IH]; simpl; [reflexivity| |exact IH].
  destruct n; rewrite ?IH; reflexivity.
Qed.

(** [onFinal] is called by a [flush] only: a cancelled stream never calls
    it. *)
Lemma cancelled_no_final (n : nat) (res : list Chunk)
  (cb : OpenAIStreamCallbacks) :
  finals (OpenAIStream_cancelled n res cb) = [].
Proof.
  unfold OpenAIStream_cancelled, streamable.
  pose proof (finals_firstn n _
                (streamable_no_final res (onChunk cb) Extractor.init)) as Hs.
  pose proof (callbacks_transform_no_final (upstream_callbacks cb)
                (firstn n (fst (streamable_from Extractor.init res (onChunk cb))))
                []) as Hc.
  rewrite Hs in Hc.
  assert (Hitems : finals
                     (notifications
                        ((if onStart (upstream_callbacks cb)
                          then [Ev Start] else [])
                           ++ fst (callbacks_transform (upstream_callbacks cb) []
                                     (firstn n
                                        (fst (streamable_from Extractor.init res
                                                (onChunk cb))))))) = []).
  { rewrite notifications_app, finals_app, Hc.
    destruct (onStart (upstream_callbacks cb)); reflexivity. }
  destruct (experimental_onFunctionCall cb).
  - now rewrite finals_transform_all.
  - now rewrite finals_stream_data.
Qed.

(** ** The terminal notification *)

(** C3, as amended: with a handler registered, a run whose stream closes
    and which does not hand over to a continuation -- no function call
    buffered, a buffered call that does not read as JSON, a handler that
    throws, declines or replies with a string -- ends with its terminal
    notification and makes no other: [onFinal] is called once, last, with
    the whole text of the stream, when it is registered and that text is
    not empty, and is not called otherwise.  When the handler answers with
    a continuation, the transformer of the stream makes no terminal
    notification of its own and the run goes on with the run of the stream
    the handler returned, under the callbacks [flush] builds for it; when
    that stream closes without a further continuation, [onFinal] is called
    with its whole text, not with the text of the top-level stream, and
    only if that text is not empty.  When the consumer cancels the stream
    before its upstream has closed, [flush] does not run and [onFinal] is
    not called. *)
Theorem final_notification (depth : nat) (res : list Chunk)
  (cb : OpenAIStreamCallbacks) (h : Handler) (items : list Item) :
  experimental_onFunctionCall cb = Some h ->
  upstream res cb = (items, None) ->
  let before := fst (transform_all cb Transformer.init items) in
  let st := snd (transform_all cb Transformer.init items) in
  (hands_over cb st = false ->
   exists body ending,
     OpenAIStream (S depth) res cb
     = Some (body ++ terminal cb (concat (messages_of items)), ending)
     /\ finals body = [])
  /\ (forall fc fname args cont,
        isFunctionStreamingIn st = true ->
        function_call_payload st = Ok (fc, fname, args) ->
        functionResponse (h fname args (internal_openai_fn_messages cb))
          = Continuation cont ->
        let call := Notify (Call fname args (internal_openai_fn_messages cb)) in
        let cb' := callbacks_after cb fc fname
                     (h fname args (internal_openai_fn_messages cb)) in
        finals (before ++ [call]) = []
        /\ OpenAIStream (S depth) res cb
           = match OpenAIStream_relayed depth cont cb' with
             | Some (nested, ending) => Some (before ++ call :: nested, ending)
             | None => None
             end
        /\ forall items',
             upstream cont cb' = (items', None) ->
             hands_over cb' (snd (transform_all cb' Transformer.init items'))
               = false ->
             exists events ending,
               OpenAIStream (S (S depth)) res cb = Some (events, ending)
               /\ finals events
                  = finals (terminal cb (concat (messages_of items'))))
  /\ (forall n, finals (OpenAIStream_cancelled n res cb) = []).
Proof.
  intros Hh Hup before st. split; [|split].
  - intros Hno.
    destruct (run_final depth res cb h items Hh Hup Hno)
      as (flushed & ending & Hrun & Hfin).
    exists (before ++ flushed), ending.
    unfold before. now rewrite <- app_assoc.
  - intros fc fname args cont Hs Hp Hr call cb'.
    assert (Hbefore : finals before = [])
      by exact (finals_before_flush false res cb h items None Hh Hup).
    assert (Hrun : forall d,
               OpenAIStream (S d) res cb
               = match OpenAIStream_relayed d cont cb' with
                 | Some (nested, ending) =>
                     Some (before ++ call :: nested, ending)
                 | None => None
                 end).
    { intros d.
      rewrite (OpenAIStream_with_handler d res cb h items Hh Hup).
      fold st.
      rewrite (flush_continuation false (OpenAIStream_relayed d) cb st h Hh
                 (started_when_buffered cb items Hs) Hs fc fname args Hp
                 cont Hr).
      fold cb'. destruct (OpenAIStream_relayed d cont cb') as [[? ?]|];
        reflexivity. }
    split; [|split].
    + now rewrite finals_app, Hbefore.
    + apply Hrun.
    + intros items' Hup' Hno.
      destruct (OpenAIStream_body_final true (OpenAIStream_relayed depth)
                  cont cb' h items' Hh Hup' Hno)
        as (flushed & enqueued & ending & Hn & Hfin & Henq & _).
      rewrite (Hrun (S depth)).
      change (OpenAIStream_relayed (S depth) cont cb')
        with (OpenAIStream_body true (OpenAIStream_relayed depth) cont cb').
      rewrite Hn. eexists _, ending. split; [reflexivity|].
      rewrite finals_app, Hbefore. cbn [app finals].
      rewrite app_assoc, finals_app, Hfin. cbn [app flush_end].
      rewrite finals_app.
      destruct Henq as [-> | [chunk ->]]; cbn [finals];
        now rewrite ?app_nil_r.
  - intros n. exact (cancelled_no_final n res cb).
Qed.

Lemma final_notification_witness :
  exists body ending,
    OpenAIStream 1 call_f (with_handler decline false)
    = Some (body ++ [Notify (Final (function_call_opening (lit "f")
                                      ++ lit "{}" ++ function_call_closing))],
            ending)
    /\ finals body = [].
Proof.
  exact (proj1 (final_notification 0 call_f (with_handler decline false)
                  decline
                  (fst (upstream call_f (with_handler decline false)))
                  eq_refl eq_refl) eq_refl).
Defined.

(** C3, as stated, fails when the handler answers with a continuation:
    [onFinal] is called with the text of the continuation, not with the text
    of the top-level stream.  It fails on a stream without text, where
    [onFinal] is not called at all.  And it fails when the consumer cancels
    after the first chunk: [flush] does not run, and [onFinal] is not
    called. *)
Lemma final_carries_continuation_text :
  OpenAIStream 2 (content_chunk (lit "Hi") :: call_f)
    (with_handler (continue_once [content_chunk (lit "ok")]) false)
  = Some ([Enqueue (lit "Hi");
           Notify (Call (Some (JSON.JString (lit "f"))) (JSON.JObject []) []);
           Enqueue (lit "ok");
           Notify (Final (lit "ok"))], None)
  /\ concat (messages_of
               (fst (upstream (content_chunk (lit "Hi") :: call_f)
                       (with_handler (continue_once [content_chunk (lit "ok")])
                          false))))
     = lit "Hi" ++ function_call_opening (lit "f") ++ lit "{}"
         ++ function_call_closing
  /\ OpenAIStream 1 [] (with_handler decline false) = Some ([], None)
  /\ OpenAIStream_cancelled 1
       [content_chunk (lit "Hel"); content_chunk (lit "lo")]
       (with_handler decline false)
     = [Enqueue (lit "Hel")]
  /\ finals [Enqueue (lit "Hel")] = [].
Proof. repeat split. Qed.

Lemma function_call_payload_error (st : state) (e : exn) :
  JSON.parse (aggregatedResponse st) = Throw e
  \/ (exists payload,
        JSON.parse (aggregatedResponse st) = Ok payload
        /\ argumentsPayload payload = Throw e) ->
  function_call_payload st = Throw e.
Proof.
  unfold function_call_payload.
  intros [H | (payload & H & Ha)]; rewrite H; simpl; [|rewrite Ha];
    reflexivity.
Qed.

(** C4, as amended: when the buffered text does not read as JSON, or the
    [arguments] of its function call do not, [flush] enqueues nothing and
    does not call the handler: the exception of [JSON.parse] leaves it after
    the terminal notification, and the caller-visible stream fails with it,
    having carried only the texts that came before the call. *)
Theorem malformed_call_fails (depth : nat) (res : list Chunk)
  (cb : OpenAIStreamCallbacks) (h : Handler) (items : list Item) (e : exn) :
  experimental_onFunctionCall cb = Some h ->
  upstream res cb = (items, None) ->
  isFunctionStreamingIn (snd (transform_all cb Transformer.init items)) = true ->
  JSON.parse (aggregatedResponse (snd (transform_all cb Transformer.init items)))
    = Throw e
  \/ (exists payload,
        JSON.parse
          (aggregatedResponse (snd (transform_all cb Transformer.init items)))
          = Ok payload
        /\ argumentsPayload payload = Throw e) ->
  OpenAIStream (S depth) res cb
  = Some (fst (transform_all cb Transformer.init items)
            ++ terminal cb (concat (messages_of items)), Some e)
  /\ output (fst (transform_all cb Transformer.init items)
               ++ terminal cb (concat (messages_of items)))
     = List.map (text_event cb) (before_call (messages_of items)).
Proof.
  intros Hh Hup Hs Hbad.
  destruct (transformer_at_flush cb items) as (Hout & _ & _ & Hinv).
  assert (Hf : isFirstChunk (snd (transform_all cb Transformer.init items))
               = false).
  { rewrite Hs in Hinv.
    destruct (isFirstChunk (snd (transform_all cb Transformer.init items)));
      [discriminate | reflexivity]. }
  split.
  - rewrite (OpenAIStream_with_handler depth res cb h items Hh Hup).
    rewrite (flush_parse_error false (OpenAIStream_relayed depth) cb _ h Hh Hf Hs e
               (function_call_payload_error _ e Hbad)).
    now rewrite flush_finally_terminal.
  - rewrite output_app, Hout. unfold terminal.
    destruct (onFinal cb && JS.truthy (concat (messages_of items)));
      simpl; now rewrite app_nil_r.
Qed.

Lemma malformed_call_fails_witness :
  OpenAIStream 1
    [content_chunk (lit "Hi"); name_chunk (lit "f"); arguments_chunk (lit "{");
     finish_chunk (lit "function_call")]
    (with_handler decline false)
  = Some ([Enqueue (lit "Hi");
           Notify (Final (lit "Hi" ++ function_call_opening (lit "f")
                            ++ lit "{" ++ function_call_closing))],
          Some SyntaxError).
Proof.
  refine (proj1 (malformed_call_fails 0
                   [content_chunk (lit "Hi"); name_chunk (lit "f");
                    arguments_chunk (lit "{");
                    finish_chunk (lit "function_call")]
                   (with_handler decline false) decline
                   (fst (upstream
                           [content_chunk (lit "Hi"); name_chunk (lit "f");
                            arguments_chunk (lit "{");
                            finish_chunk (lit "function_call")]
                           (with_handler decline false)))
                   SyntaxError eq_refl eq_refl eq_refl _)).
  right. eexists. split; reflexivity.
Defined.

(** C4, as stated, fails on a call that ends before its arguments are
    closed, and on a call whose arguments are not JSON: the run fails with
    the exception of [JSON.parse], and the buffered text is not enqueued. *)
Lemma malformed_call_not_emitted :
  OpenAIStream 1 [name_chunk (lit "f")] (with_handler decline false)
  = Some ([Notify (Final (function_call_opening (lit "f")))], Some SyntaxError)
  /\ OpenAIStream 1
       [name_chunk (lit "f"); arguments_chunk (lit "{");
        finish_chunk (lit "function_call")]
       (with_handler decline false)
     = Some ([Notify (Final (function_call_opening (lit "f") ++ lit "{"
                               ++ function_call_closing))],
             Some SyntaxError).
Proof. split; reflexivity. Qed.

(** C7, as amended: in raw mode a plain text is enqueued as it is, and so
    is the function-call event of [flush]: the buffered text itself, without
    line format.  The line format (digit, colon, JSON text, line feed) is
    used in complex mode only, for text and function-call events alike. *)
Theorem raw_mode_events (depth : nat) (res : list Chunk)
  (cb : OpenAIStreamCallbacks) (h : Handler) (items : list Item)
  (fc fname : JSON.jsvalue) (args : JSON.value) :
  experimental_onFunctionCall cb = Some h ->
  upstream res cb = (items, None) ->
  isFunctionStreamingIn (snd (transform_all cb Transformer.init items)) = true ->
  function_call_payload (snd (transform_all cb Transformer.init items))
    = Ok (fc, fname, args) ->
  functionResponse (h fname args (internal_openai_fn_messages cb)) = Nothing ->
  exists events,
    OpenAIStream (S depth) res cb = Some (events, None)
    /\ output events
       = List.map (text_event cb) (before_call (messages_of items))
           ++ [function_call_event cb (concat (from_call (messages_of items)))]
    /\ (experimental_streamData cb = false ->
        output events
        = before_call (messages_of items)
            ++ [concat (from_call (messages_of items))])
    /\ (experimental_streamData cb = true ->
        output events
        = List.map (getStreamString text_) (before_call (messages_of items))
            ++ [getStreamString function_call_
                  (concat (from_call (messages_of items)))]).
Proof.
  intros Hh Hup Hs Hp Hr.
  destruct (transformer_at_flush cb items) as (Hout & Hagg & _ & Hinv).
  assert (Hf : isFirstChunk (snd (transform_all cb Transformer.init items))
               = false).
  { rewrite Hs in Hinv.
    destruct (isFirstChunk (snd (transform_all cb Transformer.init items)));
      [discriminate | reflexivity]. }
  eexists. split.
  - rewrite (OpenAIStream_with_handler depth res cb h items Hh Hup).
    rewrite (flush_declined false (OpenAIStream_relayed depth) cb _ h Hh Hf Hs
               fc fname args Hp (or_introl Hr)).
    cbn [flush_end app]. reflexivity.
  - assert (Hgen : output
                     (fst (transform_all cb Transformer.init items)
                        ++ Notify (Call fname args (internal_openai_fn_messages cb))
                        :: Enqueue
                             (function_call_event cb
                                (aggregatedResponse
                                   (snd (transform_all cb Transformer.init items))))
                        :: flush_finally cb
                             (snd (transform_all cb Transformer.init items)))
                   = List.map (text_event cb) (before_call (messages_of items))
                       ++ [function_call_event cb
                             (concat (from_call (messages_of items)))]).
    { rewrite output_app, Hout, Hagg. simpl.
      now rewrite output_flush_finally. }
    split; [exact Hgen|]. split; intros Hmode; rewrite Hgen;
      unfold text_event, function_call_event; rewrite Hmode;
      [now rewrite map_id | reflexivity].
Qed.

Lemma raw_mode_events_witness :
  exists events,
    OpenAIStream 1 (content_chunk (lit "Hi") :: call_f)
      (with_handler decline false) = Some (events, None)
    /\ output events
       = [lit "Hi";
          function_call_opening (lit "f") ++ lit "{}" ++ function_call_closing].
Proof.
  destruct (raw_mode_events 0 (content_chunk (lit "Hi") :: call_f)
              (with_handler decline false) decline
              (fst (upstream (content_chunk (lit "Hi") :: call_f)
                      (with_handler decline false)))
              (Some (JSON.JObject
                       [(lit "name", JSON.JString (lit "f"));
                        (lit "arguments", JSON.JString (lit "{}"))]))
              (Some (JSON.JString (lit "f"))) (JSON.JObject [])
              eq_refl eq_refl eq_refl eq_refl eq_refl)
    as (events & Hrun & _ & Hraw & _).
  exists events. split; [exact Hrun | exact (Hraw eq_refl)].
Defined.

(** C7, as stated, fails in raw mode on a declined function call: the event
    enqueued by [flush] is the buffered text, not its line in the stream
    format. *)
Lemma raw_function_call_not_enveloped :
  OpenAIStream 1 call_f (with_handler decline false)
  = Some ([Notify (Call (Some (JSON.JString (lit "f"))) (JSON.JObject []) []);
           Enqueue (function_call_opening (lit "f") ++ lit "{}"
                      ++ function_call_closing);
           Notify (Final (function_call_opening (lit "f") ++ lit "{}"
                            ++ function_call_closing))], None)
  /\ function_call_opening (lit "f") ++ lit "{}" ++ function_call_closing
     <> getStreamString function_call_
          (function_call_opening (lit "f") ++ lit "{}" ++ function_call_closing).
Proof. split; [reflexivity | discriminate]. Qed.

(** ** Continuations *)






(** ** A function call through the extractor *)

Lemma string_chars_name (n rest : jsstring) :
  forallb name_char n = true ->
  JSON.string_chars (n ++ quote :: rest) = Some (n, rest).
Proof.
  induction n as [|c n IH]; intros Hn; [reflexivity|].
  simpl in Hn. apply andb_true_iff in Hn as [Hc Hn].
  unfold name_char, quote, backslash in Hc.
  apply andb_true_iff in Hc as [Hc H92]. apply andb_true_iff in Hc as [H32 H34].
  apply negb_true_iff, N.eqb_neq in H92, H34. apply N.leb_le in H32.
  change ((c :: n) ++ quote :: rest) with (c :: (n ++ quote :: rest)).
  rewrite string_chars_plain, IH by trivial. reflexivity.
Qed.

Lemma function_call_opening_parts (n : jsstring) :
  function_call_opening n = opening_head ++ n ++ opening_tail.
Proof.
  unfold function_call_opening, quoted.
  change (lit "{" ++ (quote :: lit "function_call" ++ [quote]) ++ lit ": {"
            ++ (quote :: lit "name" ++ [quote]) ++ lit ": "
            ++ (quote :: n ++ [quote]) ++ lit ", "
            ++ (quote :: lit "arguments" ++ [quote]) ++ lit ": " ++ [quote])
    with (opening_head ++ (n ++ [quote]) ++ lit ", "
            ++ (quote :: lit "arguments" ++ [quote]) ++ lit ": " ++ [quote]).
  rewrite <- app_assoc. reflexivity.
Qed.

Lemma fuel_6 (n : nat) : (2 <= n)%nat -> exists k, (2 * n + 2 = 6 + k)%nat.
Proof. intros H. exists (2 * n - 4)%nat. lia. Qed.

(** The text of a whole call reads back as the object of the call, with the
    arguments as they were before the escaping. *)
Lemma function_call_reads_back (n a : jsstring) :
  forallb name_char n = true ->
  forallb escapable a = true ->
  JSON.parse (function_call_opening n ++ escapePartialJson a
                ++ function_call_closing)
  = Ok (JSON.JObject
          [(lit "function_call",
            JSON.JObject [(lit "name", JSON.JString n);
                          (lit "arguments", JSON.JString a)])]).
Proof.
  intros Hn Ha. unfold JSON.parse.
  destruct (fuel_6 (List.length (function_call_opening n ++ escapePartialJson a
                                   ++ function_call_closing))) as [k ->].
  { unfold function_call_opening. simpl. lia. }
  rewrite function_call_opening_parts, <- !app_assoc.
  unfold opening_head, opening_tail, function_call_closing.
  cbn.
  match goal with
  | |- context [JSON.string_chars (n ++ 34 :: ?rest)] =>
      change (JSON.string_chars (n ++ 34 :: rest))
        with (JSON.string_chars (n ++ quote :: rest));
      rewrite (string_chars_name n rest Hn)
  end.
  cbn.
  rewrite (string_chars_escaped a [125; 125] Ha).
  reflexivity.
Qed.

Lemma truthy_escapePartialJson (a : jsstring) :
  JS.truthy (escapePartialJson a) = JS.truthy a.
Proof.
  rewrite escapePartialJson_flat_map. destruct a as [|c a]; [reflexivity|].
  simpl. unfold escape_char.
  repeat match goal with
  | |- context [if ?b then _ else _] => destruct b
  end; reflexivity.
Qed.

Lemma chunkToText_arguments (st : Extractor.state) (a : jsstring) :
  a <> [] ->
  chunkToText st (arguments_chunk a) = Ok (escapePartialJson a, st).
Proof. destruct a; [congruence | reflexivity]. Qed.

Lemma streamable_arguments (fragments : list jsstring) (rest : list Chunk) :
  forall st,
  forallb JS.truthy fragments = true ->
  streamable_from st (List.map arguments_chunk fragments ++ rest) false
  = (List.map (fun a => Msg (escapePartialJson a)) fragments
       ++ fst (streamable_from st rest false),
     snd (streamable_from st rest false)).
Proof.
  induction fragments as [|a fragments IH]; intros st Hall.
  - simpl. now destruct (streamable_from st rest false).
  - simpl in Hall. apply andb_true_iff in Hall as [Ha Hall].
    cbn [List.map app streamable_from].
    rewrite chunkToText_arguments by (destruct a; [discriminate | congruence]).
    rewrite (IH st Hall), truthy_escapePartialJson, Ha. reflexivity.
Qed.

(** The extractor turns the chunks of a call into the opening text, the
    escaped fragments and the closing text. *)
Lemma streamable_call (fname : jsstring) (fragments : list jsstring) :
  fname <> [] ->
  forallb JS.truthy fragments = true ->
  streamable (call_chunks fname fragments) false
  = (Msg (function_call_opening fname)
       :: List.map (fun a => Msg (escapePartialJson a)) fragments
       ++ [Msg function_call_closing],
     None)
  /\ concat (messages_of (fst (streamable (call_chunks fname fragments) false)))
     = function_call_opening fname ++ escapePartialJson (concat fragments)
         ++ function_call_closing.
Proof.
  intros Hn Hall.
  assert (Hrun : streamable (call_chunks fname fragments) false
                 = (Msg (function_call_opening fname)
                      :: List.map (fun a => Msg (escapePartialJson a)) fragments
                      ++ [Msg function_call_closing],
                    None)).
  { unfold streamable, call_chunks. cbn [streamable_from].
    assert (Hname : chunkToText Extractor.init (name_chunk fname)
                    = Ok (function_call_opening fname,
                          {| Extractor.isStreamStart := true;
                             Extractor.isFunctionStreamingIn := true |}))
      by (destruct fname; [congruence | reflexivity]).
    rewrite Hname, streamable_arguments by exact Hall. reflexivity. }
  split; [exact Hrun|]. rewrite Hrun. cbn [fst messages_of concat].
  f_equal. rewrite messages_of_app. cbn [messages_of]. rewrite concat_app.
  cbn [concat]. rewrite app_nil_r. f_equal.
  clear. induction fragments as [|a fragments IH]; [reflexivity|].
  cbn [List.map messages_of concat]. now rewrite escapePartialJson_app, IH.
Qed.

(** ** Further behaviour of the code *)

(** A stream that fails before it closes: [flush] does not run, and with a
    handler registered [onFinal] is not called. *)
Lemma upstream_failure_no_final (depth : nat) (res : list Chunk)
  (cb : OpenAIStreamCallbacks) (h : Handler) (items : list Item) (e : exn) :
  experimental_onFunctionCall cb = Some h ->
  upstream res cb = (items, Some e) ->
  OpenAIStream (S depth) res cb
  = Some (fst (transform_all cb Transformer.init items), Some e)
  /\ finals (fst (transform_all cb Transformer.init items)) = [].
Proof.
  intros Hh Hup. split.
  - rewrite OpenAIStream_unfold. rewrite Hup, Hh.
    destruct (transform_all cb Transformer.init items). reflexivity.
  - rewrite finals_transform_all.
    replace items with (fst (upstream res cb)) by now rewrite Hup.
    now rewrite (upstream_no_final res cb h Hh).
Qed.

(** The [text] of a completion is returned when the choice also has a
    [delta], whose content is missing. *)
Example legacy_text_with_delta :
  chunkToText Extractor.init
    {| choices :=
         Some [ {| delta := Some {| content := undefined;
                                    function_call := None |};
                   text := Some (lit "Hello");
                   finish_reason := None |} ];
       conversation_id := None;
       parent_message_id := None |}
  = Ok (lit "Hello",
        {| Extractor.isStreamStart := false;
           Extractor.isFunctionStreamingIn := false |}).
Proof. reflexivity. Qed.

(** A chunk that carries the identifiers and no content: the template
    literal prints the missing content as a word. *)
Example side_channel_without_content :
  chunkToText Extractor.init
    {| choices :=
         Some [chat_choice {| content := undefined; function_call := None |}
                 (Some (lit "stop"))];
       conversation_id := Some (lit "c1");
       parent_message_id := Some (lit "m7") |}
  = Ok (lit "undefined" ++ side_channel (lit "c1") (lit "m7"),
        {| Extractor.isStreamStart := false;
           Extractor.isFunctionStreamingIn := false |}).
Proof. reflexivity. Qed.

(** The scenario of the specification: two contents and a final chunk. *)
Example hello_scenario :
  OpenAIStream 1
    [content_chunk (lit "Hel"); content_chunk (lit "lo");
     finish_chunk (lit "stop")] final_only
  = Some ([Enqueue (lit "Hel"); Enqueue (lit "lo");
           Notify (Final (lit "Hello"))], None).
Proof. reflexivity. Qed.

(** The arguments of a call given as a number beyond the range of the
    doubles: [JSON.parse] is handed an infinity, which it prints as a word
    and cannot read, and the stream fails. *)
Example arguments_beyond_the_doubles :
  JSON.parse_value (Some (JSON.JNumber (lit "1e308")))
  = Ok (JSON.JNumber (lit "1e308"))
  /\ JSON.parse_value (Some (JSON.JNumber (lit "1e400"))) = Throw SyntaxError
  /\ OpenAIStream 1
       [content_chunk
          (lit "{" ++ quoted (lit "function_call") ++ lit ":{"
             ++ quoted (lit "name") ++ lit ":" ++ quoted (lit "f") ++ lit ","
             ++ quoted (lit "arguments") ++ lit ":1e400}}")]
       (with_handler decline false)
     = Some ([Notify (Final
                        (lit "{" ++ quoted (lit "function_call") ++ lit ":{"
                           ++ quoted (lit "name") ++ lit ":" ++ quoted (lit "f")
                           ++ lit "," ++ quoted (lit "arguments")
                           ++ lit ":1e400}}"))],
             Some SyntaxError).
Proof. repeat split. Qed.

(** [onToken] is called after the text has been enqueued; when the stream
    is a continuation, the calling stream reads the chunk, and enqueues it
    on the caller-visible stream, after the call. *)
Example token_after_enqueue :
  OpenAIStream 2 (content_chunk (lit "Hi") :: call_f)
    {| onStart := false; onToken := true; onCompletion := false;
       onFinal := false; onChunk := false;
       experimental_streamData := false;
       experimental_onFunctionCall :=
         Some (continue_once [content_chunk (lit "ok")]);
       internal_openai_fn_messages := [] |}
  = Some ([Enqueue (lit "Hi"); Notify (Token (lit "Hi"));
           Notify (Token (function_call_opening (lit "f")));
           Notify (Token (lit "{}"));
           Notify (Token function_call_closing);
           Notify (Call (Some (JSON.JString (lit "f"))) (JSON.JObject []) []);
           Notify (Token (lit "ok")); Enqueue (lit "ok")], None).
Proof. reflexivity. Qed.

(* ================================================================== *)
(** * Further properties of the code *)

(** ** The stream line format: [getStreamString] *)

Lemma hex_digit_hex_char (d : N) :
  d < 16 -> JSON.hex_digit (JSON.hex_char d) = Some d.
Proof.
  intros H.
  assert (Hd : d = 0 \/ d = 1 \/ d = 2 \/ d = 3 \/ d = 4 \/ d = 5 \/ d = 6
               \/ d = 7 \/ d = 8 \/ d = 9 \/ d = 10 \/ d = 11 \/ d = 12
               \/ d = 13 \/ d = 14 \/ d = 15) by lia.
  repeat (destruct Hd as [-> | Hd]; [reflexivity|]). subst d. reflexivity.
Qed.

Lemma hex4_unicode_escape (c : N) :
  c < 65536 ->
  JSON.hex4 (JSON.hex_char (c / 4096 mod 16)) (JSON.hex_char (c / 256 mod 16))
    (JSON.hex_char (c / 16 mod 16)) (JSON.hex_char (c mod 16)) = Some c.
Proof.
  intros Hc. unfold JSON.hex4.
  rewrite !hex_digit_hex_char by (apply N.mod_lt; discriminate).
  f_equal.
  assert (H16 : 16 <> 0) by discriminate.
  pose proof (N.div_mod c 16 H16) as H1.
  pose proof (N.div_mod (c / 16) 16 H16) as H2.
  pose proof (N.div_mod (c / 256) 16 H16) as H3.
  rewrite N.Div0.div_div in H2, H3.
  change (16 * 16) with 256 in H2. change (256 * 16) with 4096 in H3.
  pose proof (N.mod_lt c 16 H16). pose proof (N.mod_lt (c / 16) 16 H16).
  pose proof (N.mod_lt (c / 256) 16 H16).
  assert (c / 4096 < 16) by (apply N.Div0.div_lt_upper_bound; lia).
  rewrite (N.mod_small (c / 4096) 16) by assumption.
  lia.
Qed.

Lemma string_chars_unicode (h1 h2 h3 h4 u : N) (r : jsstring) :
  JSON.hex4 h1 h2 h3 h4 = Some u ->
  JSON.string_chars (92 :: 117 :: h1 :: h2 :: h3 :: h4 :: r) =
  match JSON.string_chars r with
  | Some (t, rest) => Some (u :: t, rest)
  | None => None
  end.
Proof.
  intros H. cbn [JSON.string_chars].
  change (N.eqb 92 34) with false. change (N.eqb 92 92) with true.
  change (N.eqb 117 117) with true. cbv iota. rewrite H. reflexivity.
Qed.

(** One character in its quoted form reads back as the character. *)
Lemma string_chars_quote_char (c : N) (r : jsstring) :
  c < 65536 ->
  JSON.string_chars (JSON.quote_char c ++ r) =
  match JSON.string_chars r with
  | Some (t, rest) => Some (c :: t, rest)
  | None => None
  end.
Proof.
  intros Hc. unfold JSON.quote_char.
  destruct (N.eqb_spec c 8) as [->|H8]; [now apply string_chars_escape|].
  destruct (N.eqb_spec c 9) as [->|H9]; [now apply string_chars_escape|].
  destruct (N.eqb_spec c 10) as [->|H10]; [now apply string_chars_escape|].
  destruct (N.eqb_spec c 12) as [->|H12]; [now apply string_chars_escape|].
  destruct (N.eqb_spec c 13) as [->|H13]; [now apply string_chars_escape|].
  destruct (N.eqb_spec c 34) as [->|H34]; [now apply string_chars_escape|].
  destruct (N.eqb_spec c 92) as [->|H92]; [now apply string_chars_escape|].
  destruct ((c <? 32) || JSON.is_high_surrogate c || JSON.is_low_surrogate c)
    eqn:Hesc.
  - unfold JSON.unicode_escape. cbn [app].
    now apply string_chars_unicode, hex4_unicode_escape.
  - apply orb_false_iff in Hesc as [Hesc _].
    apply orb_false_iff in Hesc as [H32 _]. apply N.ltb_ge in H32.
    now apply string_chars_plain.
Qed.

Lemma string_chars_quote_chars (n : nat) :
  forall s rest,
  (List.length s <= n)%nat ->
  Forall (fun c => c < 65536) s ->
  JSON.string_chars (JSON.quote_chars s ++ 34 :: rest) = Some (s, rest).
Proof.
  induction n as [|n IH]; intros s rest Hlen Hs.
  - destruct s; [reflexivity | simpl in Hlen; lia].
  - destruct s as [|c r]; [reflexivity|].
    inversion Hs as [|? ? Hc Hr]; subst.
    assert (Hone : JSON.string_chars
                     ((JSON.quote_char c ++ JSON.quote_chars r) ++ 34 :: rest)
                   = Some (c :: r, rest)).
    { rewrite <- app_assoc, string_chars_quote_char by exact Hc.
      rewrite IH; [reflexivity | simpl in Hlen; lia | exact Hr]. }
    cbn [JSON.quote_chars].
    destruct (JSON.is_high_surrogate c) eqn:Hhigh; [|exact Hone].
    destruct r as [|d r'];
      [simpl in Hone; rewrite app_nil_r in Hone; exact Hone|].
    destruct (JSON.is_low_surrogate d) eqn:Hlow; [|exact Hone].
    inversion Hr as [|? ? Hd Hr']; subst.
    unfold JSON.is_high_surrogate in Hhigh. unfold JSON.is_low_surrogate in Hlow.
    apply andb_true_iff in Hhigh as [Hc1 _].
    apply andb_true_iff in Hlow as [Hd1 _].
    apply N.leb_le in Hc1, Hd1.
    cbn [app]. rewrite !string_chars_plain by lia.
    rewrite IH; [reflexivity | simpl in Hlen; lia | exact Hr'].
Qed.

(** [JSON.parse(JSON.stringify(s))] is [s]. *)
Lemma parse_stringify (s : jsstring) :
  Forall (fun c => c < 65536) s ->
  JSON.parse (JSON.stringify s) = Ok (JSON.JString s).
Proof.
  intros Hs. apply (parse_string_literal (JSON.quote_chars s)).
  exact (string_chars_quote_chars (List.length s) s [] (le_n _) Hs).
Qed.

Lemma hex_char_not_LF (d : N) : JSON.hex_char d <> 10.
Proof.
  unfold JSON.hex_char. destruct (N.ltb_spec d 10); lia.
Qed.

Lemma quote_char_no_LF (c : N) : Forall (fun x => x <> 10) (JSON.quote_char c).
Proof.
  unfold JSON.quote_char.
  repeat match goal with
  | |- context [if N.eqb c ?k then _ else _] =>
      destruct (N.eqb_spec c k); [repeat constructor; discriminate|]
  end.
  destruct ((c <? 32) || JSON.is_high_surrogate c || JSON.is_low_surrogate c)
    eqn:Hesc.
  - unfold JSON.unicode_escape.
    repeat constructor; try discriminate; apply hex_char_not_LF.
  - repeat constructor. assumption.
Qed.

Lemma quote_chars_no_LF (n : nat) :
  forall s, (List.length s <= n)%nat ->
  Forall (fun x => x <> 10) (JSON.quote_chars s).
Proof.
  induction n as [|n IH]; intros s Hlen.
  - destruct s; [constructor | simpl in Hlen; lia].
  - destruct s as [|c r]; [constructor|].
    assert (Hone : Forall (fun x => x <> 10)
                     (JSON.quote_char c ++ JSON.quote_chars r)).
    { apply Forall_app. split; [apply quote_char_no_LF|].
      apply IH. simpl in Hlen. lia. }
    cbn [JSON.quote_chars].
    destruct (JSON.is_high_surrogate c) eqn:Hhigh; [|exact Hone].
    destruct r as [|d r']; [apply quote_char_no_LF|].
    destruct (JSON.is_low_surrogate d) eqn:Hlow; [|exact Hone].
    unfold JSON.is_high_surrogate in Hhigh. unfold JSON.is_low_surrogate in Hlow.
    apply andb_true_iff in Hhigh as [Hc1 _].
    apply andb_true_iff in Hlow as [Hd1 _].
    apply N.leb_le in Hc1, Hd1.
    constructor; [lia|]. constructor; [lia|].
    apply IH. simpl in Hlen. lia.
Qed.

(** A line of the stream format is the digit of its kind, a colon, a JSON
    text that reads back as the value, and a line feed; the JSON text holds
    no line feed, so that the line ends at the first line feed. *)
Theorem getStreamString_reads_back (type : StreamStringPrefix)
  (value : jsstring) :
  Forall (fun c => c < 65536) value ->
  exists payload,
    getStreamString type value
    = (48 + StreamStringPrefixes type) :: 58 :: payload ++ [LF]
    /\ JSON.parse payload = Ok (JSON.JString value)
    /\ Forall (fun x => x <> LF) payload.
Proof.
  intros Hv. exists (JSON.stringify value). split; [reflexivity|]. split.
  - now apply parse_stringify.
  - unfold JSON.stringify, LF. constructor; [discriminate|].
    apply Forall_app. split.
    + apply (quote_chars_no_LF (List.length value)). apply le_n.
    + repeat constructor. discriminate.
Qed.

Lemma getStreamString_reads_back_witness :
  exists payload,
    getStreamString function_call_ (lit "a" ++ [quote; LF; 55357; 56832; 55357])
    = 49 :: 58 :: payload ++ [LF]
    /\ JSON.parse payload
       = Ok (JSON.JString (lit "a" ++ [quote; LF; 55357; 56832; 55357]))
    /\ Forall (fun x => x <> LF) payload.
Proof.
  apply (getStreamString_reads_back function_call_
           (lit "a" ++ [quote; LF; 55357; 56832; 55357])).
  repeat constructor.
Defined.

(** ** [streamable] *)

(** The generator never yields an empty text. *)
Theorem streamable_yields_no_empty_text (chunks : list Chunk) (cb : bool) :
  forall st,
  Forall (fun m => m <> []) (messages_of (fst (streamable_from st chunks cb))).
Proof.
  induction chunks as [|c chunks IH]; intros st; simpl; [constructor|].
  destruct (chunkToText st c) as [[t st']|e]; [|constructor].
  specialize (IH st').
  destruct (streamable_from st' chunks cb) as [items ending]. simpl in *.
  rewrite !messages_of_app.
  assert (Hcb : messages_of (if cb then [Ev (ChunkSeen c)] else []) = [])
    by (destruct cb; reflexivity).
  rewrite Hcb. cbn [app]. apply Forall_app. split; [|exact IH].
  destruct t; simpl; repeat constructor. discriminate.
Qed.

(** The texts and the ending of the generator do not depend on whether a
    callback watches the chunks. *)
Lemma streamable_messages_any_cb (chunks : list Chunk) (cb : bool) :
  forall st,
  messages_of (fst (streamable_from st chunks cb))
  = messages_of (fst (streamable_from st chunks false))
  /\ snd (streamable_from st chunks cb) = snd (streamable_from st chunks false).
Proof.
  induction chunks as [|c chunks IH]; intros st; simpl; [split; reflexivity|].
  destruct (chunkToText st c) as [[t st']|e]; [|split; reflexivity].
  destruct (IH st') as [Hm He].
  destruct (streamable_from st' chunks cb) as [items ending].
  destruct (streamable_from st' chunks false) as [items0 ending0].
  simpl in *. subst ending0. split; [|reflexivity].
  rewrite !messages_of_app, Hm. destruct cb; reflexivity.
Qed.

(** The callback of [streamable] is shown the chunks one by one, in order,
    each after it has been extracted: all of them when the stream closes,
    those before the chunk on which the extractor throws when it fails.
    Without callback the generator notifies nothing. *)
Theorem onChunk_sees_extracted_chunks (chunks : list Chunk) :
  forall st,
  notifications (fst (streamable_from st chunks false)) = []
  /\ exists seen rest,
       chunks = seen ++ rest
       /\ notifications (fst (streamable_from st chunks true))
          = List.map (fun c => Notify (ChunkSeen c)) seen
       /\ (snd (streamable_from st chunks true) = None -> rest = [])
       /\ (forall e, snd (streamable_from st chunks true) = Some e ->
             exists c rest' st',
               rest = c :: rest' /\ chunkToText st' c = Throw e).
Proof.
  induction chunks as [|c chunks IH]; intros st; simpl.
  - split; [reflexivity|]. exists [], []. repeat split. discriminate.
  - destruct (chunkToText st c) as [[t st']|e] eqn:Hc.
    + destruct (IH st') as (Hno & seen & rest & Hsplit & Hseen & Hclose & Hfail).
      destruct (streamable_from st' chunks false) as [items0 ending0].
      destruct (streamable_from st' chunks true) as [items ending].
      simpl in *. split.
      * rewrite notifications_app, Hno. destruct (JS.truthy t); reflexivity.
      * exists (c :: seen), rest. rewrite Hsplit. split; [reflexivity|].
        split; [|split; assumption].
        cbn [List.map]. f_equal. rewrite notifications_app, Hseen.
        destruct (JS.truthy t); reflexivity.
    + split; [reflexivity|]. exists [], (c :: chunks). simpl.
      repeat split; try discriminate.
      intros e' He'. injection He' as <-. now exists c, chunks, st.
Qed.

(** ** Runs without a handler *)

Lemma output_stream_data (flag : bool) (cb : OpenAIStreamCallbacks)
  (items : list Item) :
  experimental_streamData cb = flag ->
  output (List.map (createStreamDataTransformer flag) items)
  = List.map (text_event cb) (messages_of items).
Proof.
  intros <-. unfold text_event.
  induction items as [|[n|m] items IH]; simpl; rewrite ?IH; reflexivity.
Qed.

Lemma handler_calls_app (a b : list Event) :
  handler_calls (a ++ b) = handler_calls a ++ handler_calls b.
Proof.
  induction a as [|e a IH]; [reflexivity|].
  destruct e as [[]|]; simpl; rewrite ?IH; reflexivity.
Qed.

(** What the stages before the last transformer notify: never a call of
    the handler. *)
Lemma streamable_no_call (chunks : list Chunk) (cb : bool) :
  forall st,
  handler_calls (notifications (fst (streamable_from st chunks cb))) = [].
Proof.
  induction chunks as [|c chunks IH]; intros st; simpl; [reflexivity|].
  destruct (chunkToText st c) as [[t st']|e]; [|reflexivity].
  specialize (IH st'). destruct (streamable_from st' chunks cb) as [items ending].
  simpl in *. rewrite !notifications_app, !handler_calls_app, IH.
  destruct cb; destruct (JS.truthy t); reflexivity.
Qed.

Lemma callbacks_transform_no_call (callbacks : OpenAIStreamCallbacks)
  (items : list Item) :
  forall aggregated,
  handler_calls
    (notifications (fst (callbacks_transform callbacks aggregated items)))
  = handler_calls (notifications items).
Proof.
  induction items as [|[n|m] items IH]; intros aggregated; simpl.
  - reflexivity.
  - specialize (IH aggregated).
    destruct (callbacks_transform callbacks aggregated items) as [out all].
    simpl in *. destruct n; rewrite ?IH; reflexivity.
  - specialize (IH (aggregated ++ m)).
    destruct (callbacks_transform callbacks (aggregated ++ m) items)
      as [out all].
    simpl in *. rewrite notifications_app, handler_calls_app, IH.
    destruct (onToken callbacks); reflexivity.
Qed.

Lemma upstream_no_call (res : list Chunk) (cb : OpenAIStreamCallbacks) :
  handler_calls (notifications (fst (upstream res cb))) = [].
Proof.
  unfold upstream, streamable, createCallbacksTransformer.
  pose proof (streamable_no_call res (onChunk cb) Extractor.init) as Hs.
  destruct (streamable_from Extractor.init res (onChunk cb)) as [items ending].
  pose proof (callbacks_transform_no_call (upstream_callbacks cb) items [])
    as Hc.
  destruct (callbacks_transform (upstream_callbacks cb) [] items) as [out all].
  simpl in *. rewrite !notifications_app, !handler_calls_app, Hc, Hs.
  destruct (onStart (upstream_callbacks cb)); destruct ending; simpl;
    try reflexivity; unfold callbacks_flush;
    destruct (onCompletion (upstream_callbacks cb));
    destruct (onFinal (upstream_callbacks cb)
              && negb match experimental_onFunctionCall (upstream_callbacks cb)
                      with Some _ => true | None => false end);
    reflexivity.
Qed.

Lemma handler_calls_transform_all (cb : OpenAIStreamCallbacks)
  (items : list Item) :
  forall st,
  handler_calls (fst (transform_all cb st items))
  = handler_calls (notifications items).
Proof.
  induction items as [|[n|m] items IH]; intros st; simpl.
  - reflexivity.
  - specialize (IH st). destruct (transform_all cb st items) as [events st'].
    simpl in *. destruct n; rewrite ?IH; reflexivity.
  - destruct (transform cb st m) as [enqueued st1] eqn:Ht.
    specialize (IH st1).
    destruct (transform_all cb st1 items) as [events st'].
    simpl in *. rewrite handler_calls_app, IH.
    unfold transform in Ht.
    destruct (isFirstChunk st && startsWith m function_call_marker);
      [|destruct (negb (isFunctionStreamingIn st))];
      injection Ht as <- _; reflexivity.
Qed.

(** The texts that reach the last transformer are those of the generator. *)
Lemma upstream_messages (res : list Chunk) (cb : OpenAIStreamCallbacks) :
  messages_of (fst (upstream res cb))
  = messages_of (fst (streamable res false))
  /\ snd (upstream res cb) = snd (streamable res false).
Proof.
  unfold upstream, streamable.
  destruct (streamable_messages_any_cb res (onChunk cb) Extractor.init)
    as [Hm He].
  destruct (streamable_from Extractor.init res (onChunk cb)) as [items ending].
  destruct (messages_of_createCallbacksTransformer (upstream_callbacks cb)
              items ending) as [Hm' He'].
  rewrite Hm', He'. simpl in *. now split.
Qed.

Lemma no_handler_run (depth : nat) (res : list Chunk)
  (cb : OpenAIStreamCallbacks) :
  experimental_onFunctionCall cb = None ->
  exists events,
    OpenAIStream (S depth) res cb = Some (events, snd (streamable res false))
    /\ output events
       = List.map (text_event cb) (messages_of (fst (streamable res false))).
Proof.
  intros Hh. rewrite OpenAIStream_unfold. rewrite Hh.
  destruct (upstream_messages res cb) as [Hm He].
  destruct (upstream res cb) as [items ending]. simpl in *. subst ending.
  eexists. split; [reflexivity|].
  now rewrite (output_stream_data _ cb items eq_refl), Hm.
Qed.

(** Without a handler a function call is not reassembled: its opening, its
    escaped fragments and its closing are enqueued one by one, as texts. *)
Theorem no_handler_call_as_text (depth : nat) (fname : jsstring)
  (fragments : list jsstring) (cb : OpenAIStreamCallbacks) :
  experimental_onFunctionCall cb = None ->
  fname <> [] ->
  forallb JS.truthy fragments = true ->
  exists events,
    OpenAIStream (S depth) (call_chunks fname fragments) cb
    = Some (events, None)
    /\ output events
       = List.map (text_event cb)
           (function_call_opening fname
              :: List.map escapePartialJson fragments
              ++ [function_call_closing]).
Proof.
  intros Hh Hn Hall.
  destruct (no_handler_run depth (call_chunks fname fragments)
              cb Hh) as (events & Hrun & Hout).
  destruct (streamable_call fname fragments Hn Hall) as [Hs _].
  rewrite Hs in Hrun, Hout. exists events. split; [exact Hrun|].
  rewrite Hout. cbn [fst messages_of]. rewrite messages_of_app.
  cbn [messages_of]. do 3 f_equal.
  clear. induction fragments as [|a fragments IH]; [reflexivity|].
  cbn [List.map messages_of]. now rewrite IH.
Qed.

Lemma no_handler_call_as_text_witness :
  exists events,
    OpenAIStream 1 (call_chunks (lit "f") [lit "{"; lit "}"]) final_only
    = Some (events, None)
    /\ output events
       = [function_call_opening (lit "f"); lit "{"; lit "}";
          function_call_closing].
Proof.
  exact (no_handler_call_as_text 0 (lit "f") [lit "{"; lit "}"] final_only
           eq_refl ltac:(discriminate) eq_refl).
Defined.

(** ** The transformer before [flush] *)

Lemma concat_before_from_call (msgs : list jsstring) :
  concat (before_call msgs) ++ concat (from_call msgs) = concat msgs.
Proof.
  induction msgs as [|m msgs IH]; [reflexivity|].
  simpl. destruct (is_call_start m); simpl; [reflexivity|].
  now rewrite <- app_assoc, IH.
Qed.

(** In raw mode the transformer loses and adds nothing before [flush]: what
    it has enqueued followed by what it has buffered is the whole text it
    has been given, which is the text kept for [onFinal]. *)
Theorem transformer_keeps_every_text (cb : OpenAIStreamCallbacks)
  (items : list Item) :
  experimental_streamData cb = false ->
  concat (output (fst (transform_all cb Transformer.init items)))
    ++ aggregatedResponse (snd (transform_all cb Transformer.init items))
  = concat (messages_of items)
  /\ aggregatedFinalCompletionResponse
       (snd (transform_all cb Transformer.init items))
     = concat (messages_of items).
Proof.
  intros Hraw.
  destruct (transformer_at_flush cb items) as (Hout & Hagg & Hfin & _).
  split; [|exact Hfin]. rewrite Hout, Hagg.
  replace (List.map (text_event cb) (before_call (messages_of items)))
    with (before_call (messages_of items)).
  - apply concat_before_from_call.
  - unfold text_event. rewrite Hraw. now rewrite map_id.
Qed.

Lemma transformer_keeps_every_text_witness :
  concat (output (fst (transform_all (with_handler decline false)
                         Transformer.init
                         [Msg (lit "Hi"); Msg (function_call_opening (lit "f"));
                          Msg (lit "{}")])))
    ++ aggregatedResponse
         (snd (transform_all (with_handler decline false) Transformer.init
                 [Msg (lit "Hi"); Msg (function_call_opening (lit "f"));
                  Msg (lit "{}")]))
  = lit "Hi" ++ function_call_opening (lit "f") ++ lit "{}".
Proof.
  exact (proj1 (transformer_keeps_every_text (with_handler decline false)
                  [Msg (lit "Hi"); Msg (function_call_opening (lit "f"));
                   Msg (lit "{}")] eq_refl)).
Defined.

(** ** Runs with a handler and no continuation *)

Lemma terminal_quiet (cb : OpenAIStreamCallbacks) (whole : jsstring) :
  output (terminal cb whole) = []
  /\ handler_calls (terminal cb whole) = []
  /\ starts (terminal cb whole) = O
  /\ completions (terminal cb whole) = [].
Proof.
  unfold terminal. destruct (onFinal cb && JS.truthy whole); repeat split.
Qed.

(** A handler changes nothing for a stream in which no text starts a
    function call: every text is enqueued as without handler, the handler is
    not called, and the run ends with the terminal notification. *)
Theorem handler_idle_without_call (depth : nat) (res : list Chunk)
  (cb : OpenAIStreamCallbacks) (h : Handler) :
  experimental_onFunctionCall cb = Some h ->
  snd (streamable res false) = None ->
  forallb (fun m => negb (is_call_start m))
    (messages_of (fst (streamable res false))) = true ->
  exists events,
    OpenAIStream (S depth) res cb
    = Some (events
              ++ terminal cb (concat (messages_of (fst (streamable res false)))),
            None)
    /\ output events
       = List.map (text_event cb) (messages_of (fst (streamable res false)))
    /\ handler_calls events = []
    /\ finals events = [].
Proof.
  intros Hh Hclose Hplain.
  destruct (upstream_messages res cb) as [Hm He].
  pose proof (upstream_no_call res cb) as Hcalls.
  pose proof (upstream_no_final res cb h Hh) as Hfinals.
  destruct (upstream res cb) as [items ending] eqn:Hup.
  simpl in Hm, He, Hcalls, Hfinals.
  rewrite Hclose in He. subst ending. rewrite <- Hm in *.
  destruct (before_call_all _ Hplain) as [Hb Hf].
  destruct (transform_all_passthrough cb items Transformer.init eq_refl eq_refl)
    as (Hout & _ & _ & Hs & Hfirst).
  rewrite Hf in Hfirst. rewrite Hfirst in Hs. simpl in Hs. rewrite Hb in Hout.
  exists (fst (transform_all cb Transformer.init items)).
  split; [|split; [exact Hout|split]].
  - rewrite (OpenAIStream_with_handler depth res cb h items Hh Hup).
    rewrite (flush_no_call false (OpenAIStream_relayed depth) cb _ Hs).
    now rewrite flush_finally_terminal.
  - now rewrite handler_calls_transform_all.
  - now rewrite finals_transform_all.
Qed.

Lemma handler_idle_without_call_witness :
  exists events,
    OpenAIStream 1 [content_chunk (lit "Hel"); content_chunk (lit "lo")]
      (with_handler decline false)
    = Some (events ++ [Notify (Final (lit "Hello"))], None)
    /\ output events = [lit "Hel"; lit "lo"]
    /\ handler_calls events = []
    /\ finals events = [].
Proof.
  exact (handler_idle_without_call 0
           [content_chunk (lit "Hel"); content_chunk (lit "lo")]
           (with_handler decline false) decline eq_refl eq_refl eq_refl).
Defined.

Section AnsweredCall.

Variable depth : nat.
Variable res : list Chunk.
Variable cb : OpenAIStreamCallbacks.
Variable h : Handler.
Variable items : list Item.
Variables fc fname : JSON.jsvalue.
Variable args : JSON.value.

Hypothesis registered : experimental_onFunctionCall cb = Some h.
Hypothesis closed : upstream res cb = (items, None).
Hypothesis buffered :
  isFunctionStreamingIn (snd (transform_all cb Transformer.init items)) = true.
Hypothesis complete :
  function_call_payload (snd (transform_all cb Transformer.init items))
  = Ok (fc, fname, args).

Let before := fst (transform_all cb Transformer.init items).
Let call := Notify (Call fname args (internal_openai_fn_messages cb)).
Let whole := concat (messages_of items).

Lemma started_at_flush :
  isFirstChunk (snd (transform_all cb Transformer.init items)) = false.
Proof.
  destruct (transformer_at_flush cb items) as (_ & _ & _ & Hinv).
  rewrite buffered in Hinv.
  destruct (isFirstChunk (snd (transform_all cb Transformer.init items)));
    [discriminate | reflexivity].
Qed.

Lemma before_quiet :
  output before = List.map (text_event cb) (before_call (messages_of items))
  /\ handler_calls before = []
  /\ finals before = [].
Proof.
  destruct (transformer_at_flush cb items) as (Hout & _).
  split; [exact Hout|]. unfold before.
  rewrite handler_calls_transform_all, finals_transform_all.
  replace items with (fst (upstream res cb)) by now rewrite closed.
  now rewrite upstream_no_call, (upstream_no_final res cb h registered).
Qed.

(** The handler replies with a string: the reply is enqueued in the place
    of the call, as a text, after the texts that came before the call; the
    handler has been called once; [onFinal] is given the text of the stream,
    call included, and not the reply. *)
Theorem handler_reply_replaces_call (s : jsstring) :
  s <> [] ->
  functionResponse (h fname args (internal_openai_fn_messages cb)) = Reply s ->
  OpenAIStream (S depth) res cb
  = Some (before ++ call :: Enqueue (text_event cb s) :: terminal cb whole,
          None)
  /\ output (before ++ call :: Enqueue (text_event cb s) :: terminal cb whole)
     = List.map (text_event cb) (before_call (messages_of items))
         ++ [text_event cb s]
  /\ handler_calls
       (before ++ call :: Enqueue (text_event cb s) :: terminal cb whole)
     = [call].
Proof.
  intros Hs Hr. destruct before_quiet as (Hout & Hcalls & _).
  destruct (terminal_quiet cb whole) as (Htout & Htcalls & _).
  split; [|split].
  - rewrite (OpenAIStream_with_handler depth res cb h items registered closed).
    rewrite (flush_reply false (OpenAIStream_relayed depth) cb _ h registered
               started_at_flush buffered fc fname args complete s Hs Hr).
    now rewrite flush_finally_terminal.
  - rewrite output_app, Hout. simpl. now rewrite Htout.
  - rewrite handler_calls_app, Hcalls. simpl. now rewrite Htcalls.
Qed.

(** The handler throws: the stream fails with its exception after the
    terminal notification; nothing of the call is enqueued. *)
Theorem handler_rejection_fails_stream :
  functionResponse (h fname args (internal_openai_fn_messages cb)) = Rejected ->
  OpenAIStream (S depth) res cb
  = Some (before ++ call :: terminal cb whole, Some HandlerError)
  /\ output (before ++ call :: terminal cb whole)
     = List.map (text_event cb) (before_call (messages_of items)).
Proof.
  intros Hr. destruct before_quiet as (Hout & _).
  destruct (terminal_quiet cb whole) as (Htout & _).
  split.
  - rewrite (OpenAIStream_with_handler depth res cb h items registered closed).
    rewrite (flush_rejected false (OpenAIStream_relayed depth) cb _ h registered
               started_at_flush buffered fc fname args complete Hr).
    now rewrite flush_finally_terminal.
  - rewrite output_app, Hout. simpl. now rewrite Htout, app_nil_r.
Qed.

End AnsweredCall.

Lemma handler_reply_replaces_call_witness :
  OpenAIStream 1 (content_chunk (lit "Hi") :: call_f)
    (with_handler (reply_with (lit "done")) false)
  = Some ([Enqueue (lit "Hi");
           Notify (Call (Some (JSON.JString (lit "f"))) (JSON.JObject []) []);
           Enqueue (lit "done");
           Notify (Final (lit "Hi" ++ function_call_opening (lit "f")
                            ++ lit "{}" ++ function_call_closing))], None).
Proof.
  exact (proj1
           (handler_reply_replaces_call 0 (content_chunk (lit "Hi") :: call_f)
              (with_handler (reply_with (lit "done")) false)
              (reply_with (lit "done"))
              (fst (upstream (content_chunk (lit "Hi") :: call_f)
                      (with_handler (reply_with (lit "done")) false)))
              (Some (call_object (lit "f") (lit "{}")))
              (Some (JSON.JString (lit "f"))) (JSON.JObject [])
              eq_refl eq_refl eq_refl eq_refl
              (lit "done") ltac:(discriminate) eq_refl)).
Defined.

Lemma handler_rejection_fails_stream_witness :
  OpenAIStream 1 (content_chunk (lit "Hi") :: call_f)
    (with_handler reject false)
  = Some ([Enqueue (lit "Hi");
           Notify (Call (Some (JSON.JString (lit "f"))) (JSON.JObject []) []);
           Notify (Final (lit "Hi" ++ function_call_opening (lit "f")
                            ++ lit "{}" ++ function_call_closing))],
          Some HandlerError).
Proof.
  exact (proj1
           (handler_rejection_fails_stream 0
              (content_chunk (lit "Hi") :: call_f)
              (with_handler reject false) reject
              (fst (upstream (content_chunk (lit "Hi") :: call_f)
                      (with_handler reject false)))
              (Some (call_object (lit "f") (lit "{}")))
              (Some (JSON.JString (lit "f"))) (JSON.JObject [])
              eq_refl eq_refl eq_refl eq_refl eq_refl)).
Defined.

(** ** A streamed call and the handler *)

Lemma is_call_start_opening (fname : jsstring) :
  is_call_start (function_call_opening fname) = true.
Proof. reflexivity. Qed.

Lemma map_escape_messages (fragments : list jsstring) :
  messages_of (List.map (fun a => Msg (escapePartialJson a)) fragments)
  = List.map escapePartialJson fragments.
Proof.
  induction fragments as [|a fragments IH]; [reflexivity|].
  cbn [List.map messages_of]. now rewrite IH.
Qed.

(** Escaping the fragments one by one and joining them is escaping the
    joined arguments: where the provider cuts the arguments does not
    matter. *)
Theorem escape_fragmentwise (fragments : list jsstring) :
  concat (List.map escapePartialJson fragments)
  = escapePartialJson (concat fragments).
Proof.
  induction fragments as [|a fragments IH]; [reflexivity|].
  cbn [List.map concat]. now rewrite escapePartialJson_app, IH.
Qed.

(** *** Texts the encoder leaves as they are *)

Lemma encode_well_formed (s : jsstring) :
  well_formed s = true -> TextEncoder_encode s = s.
Proof.
  assert (H : forall n s,
             (List.length s <= n)%nat ->
             well_formed s = true -> TextEncoder_encode s = s).
  { clear s. induction n as [|n IH]; intros [|c r] Hlen Hwf;
      try reflexivity; simpl in Hlen; try lia.
    cbn [well_formed TextEncoder_encode] in *.
    destruct (JSON.is_high_surrogate c).
    - destruct r as [|d r']; [discriminate|].
      apply andb_true_iff in Hwf as [Hd Hwf]. rewrite Hd.
      rewrite (IH r') by (simpl in Hlen; lia || exact Hwf). reflexivity.
    - apply andb_true_iff in Hwf as [Hc Hwf]. apply negb_true_iff in Hc.
      rewrite Hc, (IH r) by (lia || exact Hwf). reflexivity. }
  exact (H (List.length s) s (le_n _)).
Qed.

Lemma well_formed_plain (a b : jsstring) :
  forallb (fun c => negb (is_surrogate c)) a = true ->
  well_formed (a ++ b) = well_formed b.
Proof.
  induction a as [|c a IH]; intros Ha; [reflexivity|].
  simpl in Ha. apply andb_true_iff in Ha as [Hc Ha].
  apply negb_true_iff, orb_false_iff in Hc as [Hh Hl].
  cbn [app well_formed]. rewrite Hh, Hl. now apply IH.
Qed.

Lemma well_formed_app (a b : jsstring) :
  well_formed a = true -> well_formed (a ++ b) = well_formed b.
Proof.
  assert (H : forall n a,
             (List.length a <= n)%nat ->
             well_formed a = true -> well_formed (a ++ b) = well_formed b).
  { clear a. induction n as [|n IH]; intros [|c r] Hlen Hwf;
      try reflexivity; simpl in Hlen; try lia.
    cbn [well_formed app] in *.
    destruct (JSON.is_high_surrogate c).
    - destruct r as [|d r']; [discriminate|].
      apply andb_true_iff in Hwf as [Hd Hwf]. cbn [app]. rewrite Hd.
      apply IH; [simpl in Hlen; lia | exact Hwf].
    - apply andb_true_iff in Hwf as [Hc Hwf]. rewrite Hc.
      apply IH; [lia | exact Hwf]. }
  exact (H (List.length a) a (le_n _)).
Qed.

Lemma escape_char_surrogate (c : N) :
  is_surrogate c = true -> escape_char c = [c].
Proof.
  unfold is_surrogate, JSON.is_high_surrogate, JSON.is_low_surrogate.
  intros H.
  assert (Hc : 55296 <= c).
  { apply orb_true_iff in H as [H | H]; apply andb_true_iff in H as [H _];
      apply N.leb_le in H; lia. }
  unfold escape_char, backslash, slash, quote, LF, CR, TAB, FF.
  repeat match goal with
  | |- context [N.eqb c ?k] =>
      destruct (N.eqb_spec c k) as [->|?]; [lia|]
  end.
  reflexivity.
Qed.

Lemma escape_char_plain (c : N) :
  is_surrogate c = false ->
  forallb (fun x => negb (is_surrogate x)) (escape_char c) = true.
Proof.
  intros H. unfold escape_char.
  repeat match goal with
  | |- context [if ?b then _ else _] => destruct b; [reflexivity|]
  end.
  simpl. now rewrite H.
Qed.

(** The escaping keeps a text well formed: it leaves the surrogates where
    they are. *)
Lemma well_formed_escapePartialJson (a : jsstring) :
  well_formed a = true -> well_formed (escapePartialJson a) = true.
Proof.
  rewrite escapePartialJson_flat_map.
  assert (H : forall n a,
             (List.length a <= n)%nat ->
             well_formed a = true -> well_formed (flat_map escape_char a) = true).
  { clear a. induction n as [|n IH]; intros [|c r] Hlen Hwf;
      try reflexivity; simpl in Hlen; try lia.
    cbn [well_formed flat_map] in *.
    destruct (JSON.is_high_surrogate c) eqn:Hh.
    - destruct r as [|d r']; [discriminate|].
      apply andb_true_iff in Hwf as [Hd Hwf]. cbn [flat_map].
      rewrite (escape_char_surrogate c), (escape_char_surrogate d)
        by (unfold is_surrogate; rewrite ?Hh, ?Hd, ?orb_true_r; reflexivity).
      cbn [app well_formed]. rewrite Hh, Hd.
      apply IH; [simpl in Hlen; lia | exact Hwf].
    - apply andb_true_iff in Hwf as [Hc Hwf]. apply negb_true_iff in Hc.
      rewrite well_formed_plain
        by (apply escape_char_plain; unfold is_surrogate; now rewrite Hh, Hc).
      apply IH; [lia | exact Hwf]. }
  exact (H (List.length a) a (le_n _)).
Qed.

Lemma well_formed_function_call_opening (fname : jsstring) :
  well_formed fname = true -> well_formed (function_call_opening fname) = true.
Proof.
  intros H. rewrite function_call_opening_parts.
  rewrite well_formed_plain by reflexivity.
  now rewrite well_formed_app.
Qed.

(** A call streamed as its name, the fragments of its arguments and the
    finish reason, the name and each fragment well formed (no surrogate pair
    cut between two fragments): the encoder leaves every text of the call
    as it is; the call is buffered whole by the transformer, and [flush]
    gives the handler the name and the value the joined fragments read as.
    When the handler declines, the run is one call of the handler, the call
    as one function-call event, and the terminal notification. *)
Theorem call_reaches_handler (depth : nat) (fname : jsstring)
  (fragments : list jsstring) (args : JSON.value)
  (cb : OpenAIStreamCallbacks) (h : Handler) :
  experimental_onFunctionCall cb = Some h ->
  fname <> [] ->
  forallb name_char fname = true ->
  forallb JS.truthy fragments = true ->
  forallb escapable (concat fragments) = true ->
  forallb well_formed (fname :: fragments) = true ->
  JSON.parse (concat fragments) = Ok args ->
  let items := fst (upstream (call_chunks fname fragments) cb) in
  let st := snd (transform_all cb Transformer.init items) in
  let whole := function_call_opening fname
                 ++ escapePartialJson (concat fragments)
                 ++ function_call_closing in
  Forall (fun message => TextEncoder_encode message = message)
    (messages_of items)
  /\ aggregatedResponse st = whole
  /\ function_call_payload st
     = Ok (Some (call_object fname (concat fragments)),
           Some (JSON.JString fname), args)
  /\ (functionResponse
        (h (Some (JSON.JString fname)) args (internal_openai_fn_messages cb))
      = Nothing ->
      exists before,
        OpenAIStream (S depth) (call_chunks fname fragments) cb
        = Some (before
                  ++ Notify (Call (Some (JSON.JString fname)) args
                               (internal_openai_fn_messages cb))
                  :: Enqueue (function_call_event cb whole)
                  :: terminal cb whole, None)
        /\ output before = []
        /\ handler_calls before = []).
Proof.
  intros Hh Hn Hname Hall Hesc Hwf Hargs items st whole.
  destruct (upstream_messages (call_chunks fname fragments) cb) as [Hm He].
  destruct (streamable_call fname fragments Hn Hall) as [Hs Hcat].
  rewrite Hs in Hm, He. rewrite Hs in Hcat. cbn [fst snd] in Hm, He, Hcat.
  fold items in Hm.
  assert (Hup : upstream (call_chunks fname fragments) cb = (items, None)).
  { unfold items. destruct (upstream (call_chunks fname fragments) cb).
    simpl in *. now subst. }
  destruct (transform_all_passthrough cb items Transformer.init eq_refl eq_refl)
    as (Hout & Hagg & _ & Hinv & Hfirst).
  fold st in Hout, Hagg, Hinv, Hfirst.
  assert (Hencode : Forall (fun message => TextEncoder_encode message = message)
                      (messages_of items)).
  { rewrite Hm. cbn [messages_of]. rewrite messages_of_app, map_escape_messages.
    cbn [forallb] in Hwf. apply andb_true_iff in Hwf as [Hwn Hwa].
    constructor.
    - now apply encode_well_formed, well_formed_function_call_opening.
    - apply Forall_app. split; [|repeat constructor].
      clear -Hwa. induction fragments as [|a fragments IH]; [constructor|].
      cbn [forallb] in Hwa. apply andb_true_iff in Hwa as [Ha Hwa].
      constructor; [|now apply IH].
      now apply encode_well_formed, well_formed_escapePartialJson. }
  rewrite Hm in Hout, Hagg, Hfirst. cbn [messages_of] in Hout, Hagg, Hfirst.
  cbn [before_call from_call] in Hout, Hagg, Hfirst.
  rewrite is_call_start_opening in Hout, Hagg, Hfirst.
  rewrite Hfirst in Hinv. cbn [negb] in Hinv.
  assert (Hwhole : aggregatedResponse st = whole).
  { rewrite Hagg. cbn [Transformer.init aggregatedResponse app].
    exact Hcat. }
  assert (Hpayload : function_call_payload st
                     = Ok (Some (call_object fname (concat fragments)),
                           Some (JSON.JString fname), args)).
  { unfold function_call_payload. rewrite Hwhole. unfold whole.
    rewrite (function_call_reads_back fname (concat fragments) Hname Hesc).
    cbn [JS.bind]. unfold argumentsPayload, payload_function_call.
    change (JSON.get (Some (JSON.JObject
                              [(lit "function_call",
                                JSON.JObject
                                  [(lit "name", JSON.JString fname);
                                   (lit "arguments",
                                    JSON.JString (concat fragments))])]))
              (lit "function_call"))
      with (Ok (Some (call_object fname (concat fragments)))).
    cbn [JS.bind].
    change (JSON.get (Some (call_object fname (concat fragments)))
              (lit "arguments"))
      with (Ok (Some (JSON.JString (concat fragments)))).
    change (JSON.get (Some (call_object fname (concat fragments)))
              (lit "name"))
      with (Ok (Some (JSON.JString fname))).
    cbn [JS.bind JSON.parse_value JSON.toString]. rewrite Hargs.
    reflexivity. }
  split; [exact Hencode|]. split; [exact Hwhole|]. split; [exact Hpayload|].
  intros Hr. exists (fst (transform_all cb Transformer.init items)).
  split; [|split].
  - rewrite (OpenAIStream_with_handler depth _ cb h items Hh Hup).
    fold st.
    rewrite (flush_declined false (OpenAIStream_relayed depth) cb st h Hh
               Hfirst Hinv _ _ _ Hpayload (or_introl Hr)).
    rewrite Hwhole. unfold st. rewrite flush_finally_terminal.
    rewrite Hm, Hcat. reflexivity.
  - exact Hout.
  - rewrite handler_calls_transform_all.
    replace items with (fst (upstream (call_chunks fname fragments) cb))
      by reflexivity.
    apply upstream_no_call.
Qed.

Lemma call_reaches_handler_witness :
  function_call_payload
    (snd (transform_all (with_handler decline false) Transformer.init
            (fst (upstream
                    (call_chunks (lit "get_weather")
                       [lit "{" ++ quoted (lit "city") ++ lit ":";
                        lit " " ++ quoted (lit "Paris") ++ lit "}"])
                    (with_handler decline false)))))
  = Ok (Some (call_object (lit "get_weather")
                (lit "{" ++ quoted (lit "city") ++ lit ": "
                   ++ quoted (lit "Paris") ++ lit "}")),
        Some (JSON.JString (lit "get_weather")),
        JSON.JObject [(lit "city", JSON.JString (lit "Paris"))]).
Proof.
  exact (proj1 (proj2 (proj2
           (call_reaches_handler 0 (lit "get_weather")
              [lit "{" ++ quoted (lit "city") ++ lit ":";
               lit " " ++ quoted (lit "Paris") ++ lit "}"]
              (JSON.JObject [(lit "city", JSON.JString (lit "Paris"))])
              (with_handler decline false) decline
              eq_refl ltac:(discriminate) eq_refl eq_refl eq_refl eq_refl
              eq_refl)))).
Defined.

(** A surrogate pair cut between two fragments is outside the theorem: the
    fragments are not well formed, and the encoder writes U+FFFD for each
    half. *)
Example split_surrogate_pair :
  well_formed [55357; 56832] = true
  /\ forallb well_formed [[55357]; [56832]] = false
  /\ List.map TextEncoder_encode [[55357]; [56832]] = [[65533]; [65533]].
Proof. repeat split. Qed.

(** The text of a whole call -- the opening with the name, the escaped
    arguments, the closing -- reads back with [JSON.parse] as the object of
    the call, with the name and with the arguments as they were before the
    escaping, provided the name holds no quote, backslash or control
    character (the opening does not escape it) and the arguments hold no
    control character beside the four that are escaped. *)
Theorem call_text_reads_back (n a : jsstring) :
  forallb name_char n = true ->
  forallb escapable a = true ->
  JSON.parse (function_call_opening n ++ escapePartialJson a
                ++ function_call_closing)
  = Ok (JSON.JObject [(lit "function_call", call_object n a)]).
Proof. exact (function_call_reads_back n a). Qed.

Lemma call_text_reads_back_witness :
  JSON.parse (function_call_opening (lit "f")
                ++ escapePartialJson
                     (lit "{" ++ quoted (lit "p") ++ lit ":"
                        ++ quoted (lit "a/b") ++ [LF] ++ lit "}")
                ++ function_call_closing)
  = Ok (JSON.JObject
          [(lit "function_call",
            call_object (lit "f")
              (lit "{" ++ quoted (lit "p") ++ lit ":"
                 ++ quoted (lit "a/b") ++ [LF] ++ lit "}"))]).
Proof.
  exact (call_text_reads_back (lit "f")
           (lit "{" ++ quoted (lit "p") ++ lit ":"
              ++ quoted (lit "a/b") ++ [LF] ++ lit "}")
           eq_refl eq_refl).
Defined.

(** The extractor turns the chunks of a call -- the name, the fragments of
    the arguments, the finish reason -- into the opening text, one escaped
    text for each fragment and the closing text, and the stream closes;
    joined, they are the opening, the escaping of the joined arguments and
    the closing. *)
Theorem call_chunks_extracted (fname : jsstring) (fragments : list jsstring) :
  fname <> [] ->
  forallb JS.truthy fragments = true ->
  streamable (call_chunks fname fragments) false
  = (Msg (function_call_opening fname)
       :: List.map (fun a => Msg (escapePartialJson a)) fragments
       ++ [Msg function_call_closing],
     None)
  /\ concat (messages_of (fst (streamable (call_chunks fname fragments) false)))
     = function_call_opening fname ++ escapePartialJson (concat fragments)
         ++ function_call_closing.
Proof. exact (streamable_call fname fragments). Qed.

Lemma call_chunks_extracted_witness :
  streamable (call_chunks (lit "f") [lit "{"; lit "}"]) false
  = ([Msg (function_call_opening (lit "f")); Msg (lit "{"); Msg (lit "}");
      Msg function_call_closing], None).
Proof.
  exact (proj1 (call_chunks_extracted (lit "f") [lit "{"; lit "}"]
                  ltac:(discriminate) eq_refl)).
Defined.

(** A stream that fails before it closes -- the extractor throws on one of
    its chunks -- never reaches [flush]: with a handler registered the run
    is what the transformer did before the failure, the stream fails with
    the exception, and [onFinal] is not called. *)
Theorem failed_stream_skips_flush (depth : nat) (res : list Chunk)
  (cb : OpenAIStreamCallbacks) (h : Handler) (items : list Item) (e : exn) :
  experimental_onFunctionCall cb = Some h ->
  upstream res cb = (items, Some e) ->
  OpenAIStream (S depth) res cb
  = Some (fst (transform_all cb Transformer.init items), Some e)
  /\ finals (fst (transform_all cb Transformer.init items)) = [].
Proof. exact (upstream_failure_no_final depth res cb h items e). Qed.

Lemma failed_stream_skips_flush_witness :
  OpenAIStream 1 [content_chunk (lit "Hi"); completion_chunk (lit "x")]
    (with_handler decline false)
  = Some ([Enqueue (lit "Hi")], Some TypeError).
Proof.
  exact (proj1 (failed_stream_skips_flush 0
                  [content_chunk (lit "Hi"); completion_chunk (lit "x")]
                  (with_handler decline false) decline
                  (fst (upstream
                          [content_chunk (lit "Hi"); completion_chunk (lit "x")]
                          (with_handler decline false)))
                  TypeError eq_refl eq_refl)).
Defined.

(** ** What holds of every run, continuations included *)

(** The two ways [flush] ends: with events of its own, the chunk it
    enqueues and the [finally] block, or with the call of the handler and
    the relayed run of a continuation, whose callbacks are those of the
    caller without [onStart]. *)
Lemma flush_cases (relayed : bool)
  (rec : list Chunk -> OpenAIStreamCallbacks -> Run)
  (cb : OpenAIStreamCallbacks) (st : state) (events : list Event)
  (ending : Ending) :
  flush relayed rec cb st = Some (events, ending) ->
  (exists own enqueued,
     events = own ++ flush_end relayed enqueued (flush_finally cb st)
     /\ starts own = O
     /\ completions own = []
     /\ output own = []
     /\ (enqueued = []
         \/ exists v, enqueued = [Enqueue (function_call_event cb v)]
                      \/ enqueued = [Enqueue (text_event cb v)]))
  \/ (exists fname args res cb' nested,
        events
        = Notify (Call fname args (internal_openai_fn_messages cb)) :: nested
        /\ rec res cb' = Some (nested, ending)
        /\ onStart cb' = false
        /\ onCompletion cb' = onCompletion cb
        /\ experimental_streamData cb' = experimental_streamData cb).
Proof.
  unfold flush, flush_try, respond.
  destruct (experimental_onFunctionCall cb) as [h|].
  - destruct (negb (isFirstChunk st) && isFunctionStreamingIn st).
    + destruct (function_call_payload st) as [[[fc fname] args]|e].
      * destruct (functionResponse
                    (h fname args (internal_openai_fn_messages cb)))
          as [| |s|res].
        -- intros H. injection H as <- <-. left. eexists [_], [].
           repeat split. now left.
        -- intros H. injection H as <- <-. left. eexists [_], [_].
           repeat split. right. eexists. left. reflexivity.
        -- destruct s as [|c s]; intros H; injection H as <- <-; left;
             eexists [_], [_]; repeat split; right; eexists;
             [left | right]; reflexivity.
        -- destruct (rec res _) as [[nested ending']|] eqn:Hn; [|discriminate].
           intros H. injection H as <- <-. right.
           eexists fname, args, res, _, nested.
           split.
           { unfold flush_end. simpl. destruct relayed; now rewrite ?app_nil_r. }
           split; [exact Hn|]. repeat split.
      * intros H. injection H as <- <-. left. exists [], []. repeat split.
        now left.
    + intros H. injection H as <- <-. left. exists [], []. repeat split.
      now left.
  - intros H. injection H as <- <-. left. exists [], []. repeat split. now left.
Qed.

(** What [flush] ends with, whoever reads the stream. *)
Lemma flush_end_quiet (relayed : bool) (cb : OpenAIStreamCallbacks)
  (st : state) (enqueued : list Event) :
  enqueued = []
  \/ (exists v, enqueued = [Enqueue (function_call_event cb v)]
                \/ enqueued = [Enqueue (text_event cb v)]) ->
  starts (flush_end relayed enqueued (flush_finally cb st)) = O
  /\ completions (flush_end relayed enqueued (flush_finally cb st)) = []
  /\ output (flush_end relayed enqueued (flush_finally cb st))
     = output enqueued.
Proof.
  intros H. unfold flush_end, flush_finally.
  destruct (onFinal cb && JS.truthy (aggregatedFinalCompletionResponse st));
    destruct relayed; destruct H as [-> | (v & [-> | ->])]; repeat split.
Qed.

Lemma starts_app (a b : list Event) : starts (a ++ b) = (starts a + starts b)%nat.
Proof.
  induction a as [|e a IH]; [reflexivity|].
  destruct e as [[]|]; simpl; rewrite ?IH; reflexivity.
Qed.

Lemma starts_transform_all (cb : OpenAIStreamCallbacks) (items : list Item) :
  forall st,
  starts (fst (transform_all cb st items)) = starts (notifications items).
Proof.
  induction items as [|[n|m] items IH]; intros st; simpl.
  - reflexivity.
  - specialize (IH st). destruct (transform_all cb st items) as [events st'].
    simpl in *. destruct n; rewrite ?IH; reflexivity.
  - destruct (transform cb st m) as [enqueued st1] eqn:Ht.
    specialize (IH st1).
    destruct (transform_all cb st1 items) as [events st'].
    simpl in *. rewrite starts_app, IH.
    unfold transform in Ht.
    destruct (isFirstChunk st && startsWith m function_call_marker);
      [|destruct (negb (isFunctionStreamingIn st))];
      injection Ht as <- _; reflexivity.
Qed.

Lemma starts_stream_data (flag : bool) (items : list Item) :
  starts (List.map (createStreamDataTransformer flag) items)
  = starts (notifications items).
Proof.
  induction items as [|[n|m] items IH]; simpl; [reflexivity| |exact IH].
  destruct n; rewrite ?IH; reflexivity.
Qed.

Lemma streamable_no_start (chunks : list Chunk) (cb : bool) :
  forall st, starts (notifications (fst (streamable_from st chunks cb))) = O.
Proof.
  induction chunks as [|c chunks IH]; intros st; simpl; [reflexivity|].
  destruct (chunkToText st c) as [[t st']|e]; [|reflexivity].
  specialize (IH st'). destruct (streamable_from st' chunks cb) as [items ending].
  simpl in *. rewrite !notifications_app, !starts_app, IH.
  destruct cb; destruct (JS.truthy t); reflexivity.
Qed.

Lemma callbacks_transform_no_start (callbacks : OpenAIStreamCallbacks)
  (items : list Item) :
  forall aggregated,
  starts (notifications (fst (callbacks_transform callbacks aggregated items)))
  = starts (notifications items).
Proof.
  induction items as [|[n|m] items IH]; intros aggregated; simpl.
  - reflexivity.
  - specialize (IH aggregated).
    destruct (callbacks_transform callbacks aggregated items) as [out all].
    simpl in *. destruct n; rewrite ?IH; reflexivity.
  - specialize (IH (aggregated ++ m)).
    destruct (callbacks_transform callbacks (aggregated ++ m) items)
      as [out all].
    simpl in *. rewrite notifications_app, starts_app, IH.
    destruct (onToken callbacks); reflexivity.
Qed.

Lemma onStart_upstream_callbacks (cb : OpenAIStreamCallbacks) :
  onStart (upstream_callbacks cb) = onStart cb.
Proof.
  unfold upstream_callbacks. destruct (experimental_onFunctionCall cb);
    reflexivity.
Qed.

Lemma upstream_starts (res : list Chunk) (cb : OpenAIStreamCallbacks) :
  starts (notifications (fst (upstream res cb)))
  = if onStart cb then 1%nat else O.
Proof.
  unfold upstream, streamable, createCallbacksTransformer.
  pose proof (streamable_no_start res (onChunk cb) Extractor.init) as Hs.
  destruct (streamable_from Extractor.init res (onChunk cb)) as [items ending].
  pose proof (callbacks_transform_no_start (upstream_callbacks cb) items [])
    as Hc.
  destruct (callbacks_transform (upstream_callbacks cb) [] items) as [out all].
  simpl in *. rewrite !notifications_app, !starts_app, Hc, Hs.
  rewrite onStart_upstream_callbacks.
  assert (Hflush : starts
                     (notifications
                        match ending with
                        | Some _ => []
                        | None => callbacks_flush (upstream_callbacks cb) all
                        end) = O).
  { destruct ending; [reflexivity|]. unfold callbacks_flush.
    destruct (onCompletion (upstream_callbacks cb));
      destruct (onFinal (upstream_callbacks cb)
                && negb match experimental_onFunctionCall (upstream_callbacks cb)
                        with Some _ => true | None => false end);
      reflexivity. }
  rewrite Hflush. destruct (onStart cb); reflexivity.
Qed.

Lemma starts_OpenAIStream_body (relayed : bool)
  (rec : list Chunk -> OpenAIStreamCallbacks -> Run) :
  (forall res cb events ending,
     rec res cb = Some (events, ending) ->
     starts events = if onStart cb then 1%nat else O) ->
  forall res cb events ending,
  OpenAIStream_body relayed rec res cb = Some (events, ending) ->
  starts events = if onStart cb then 1%nat else O.
Proof.
  intros IH res cb events ending. unfold OpenAIStream_body.
  pose proof (upstream_starts res cb) as Hup.
  destruct (upstream res cb) as [items ending0]. simpl in Hup.
  assert (Hread : starts (notifications (items_read relayed items))
                  = if onStart cb then 1%nat else O).
  { unfold items_read. destruct relayed;
      [now rewrite notifications_relayed_items | exact Hup]. }
  fold (items_read relayed items).
  destruct (experimental_onFunctionCall cb) as [h|].
  - pose proof (starts_transform_all cb (items_read relayed items)
                  Transformer.init) as Ht.
    destruct (transform_all cb Transformer.init (items_read relayed items))
      as [before st].
    simpl in Ht. destruct ending0 as [e|].
    + intros H. injection H as <- <-. now rewrite Ht.
    + destruct (flush relayed rec cb st) as [[events' ending']|] eqn:Hf;
        [|discriminate].
      intros H. injection H as <- <-. rewrite starts_app, Ht, Hread.
      destruct (flush_cases _ _ _ _ _ _ Hf)
        as [(own & enqueued & -> & Hown & _ & _ & Henq)
           | (fname & args & res' & cb' & nested & -> & Hn & Hno & _)].
      * rewrite starts_app, Hown.
        destruct (flush_end_quiet relayed cb st enqueued Henq) as (-> & _).
        now rewrite Nat.add_0_r.
      * simpl. rewrite (IH _ _ _ _ Hn), Hno. now rewrite Nat.add_0_r.
  - intros H. injection H as <- <-. now rewrite starts_stream_data.
Qed.

Lemma onStart_once_relayed (depth : nat) :
  forall res cb events ending,
  OpenAIStream_relayed depth res cb = Some (events, ending) ->
  starts events = if onStart cb then 1%nat else O.
Proof.
  induction depth as [|depth IH]; intros res cb events ending; [discriminate|].
  exact (starts_OpenAIStream_body true _ IH res cb events ending).
Qed.

(** [onStart] is called once in a run, however many continuations the run
    goes through, and not at all when it is not registered: no continuation
    calls it again. *)
Theorem onStart_once (depth : nat) :
  forall res cb events ending,
  OpenAIStream depth res cb = Some (events, ending) ->
  starts events = if onStart cb then 1%nat else O.
Proof.
  destruct depth as [|depth]; intros res cb events ending; [discriminate|].
  exact (starts_OpenAIStream_body false _ (onStart_once_relayed depth)
           res cb events ending).
Qed.

Lemma onStart_once_witness :
  starts [Notify Start; Enqueue (lit "Hi");
          Notify (Call (Some (JSON.JString (lit "f"))) (JSON.JObject []) []);
          Enqueue (lit "ok"); Notify (Final (lit "ok"))] = 1%nat.
Proof.
  exact (onStart_once 2 (content_chunk (lit "Hi") :: call_f)
           {| onStart := true; onToken := false; onCompletion := false;
              onFinal := true; onChunk := false;
              experimental_streamData := false;
              experimental_onFunctionCall :=
                Some (continue_once [content_chunk (lit "ok")]);
              internal_openai_fn_messages := [] |}
           [Notify Start; Enqueue (lit "Hi");
            Notify (Call (Some (JSON.JString (lit "f"))) (JSON.JObject []) []);
            Enqueue (lit "ok"); Notify (Final (lit "ok"))]
           None eq_refl).
Defined.

Lemma is_line_text_event (cb : OpenAIStreamCallbacks) (v : jsstring) :
  experimental_streamData cb = true -> is_line (text_event cb v).
Proof.
  intros H. unfold text_event. rewrite H. exists v. now left.
Qed.

Lemma is_line_function_call_event (cb : OpenAIStreamCallbacks) (v : jsstring) :
  experimental_streamData cb = true -> is_line (function_call_event cb v).
Proof.
  intros H. unfold function_call_event. rewrite H. exists v. now right.
Qed.

Lemma Forall_is_line_text_events (cb : OpenAIStreamCallbacks)
  (msgs : list jsstring) :
  experimental_streamData cb = true ->
  Forall is_line (List.map (text_event cb) msgs).
Proof.
  intros H. induction msgs as [|m msgs IH]; simpl; constructor;
    [now apply is_line_text_event | exact IH].
Qed.

Lemma lines_OpenAIStream_body (relayed : bool)
  (rec : list Chunk -> OpenAIStreamCallbacks -> Run) :
  (forall res cb events ending,
     experimental_streamData cb = true ->
     rec res cb = Some (events, ending) ->
     Forall is_line (output events)) ->
  forall res cb events ending,
  experimental_streamData cb = true ->
  OpenAIStream_body relayed rec res cb = Some (events, ending) ->
  Forall is_line (output events).
Proof.
  intros IH res cb events ending Hmode. unfold OpenAIStream_body.
  destruct (upstream res cb) as [items ending0].
  fold (items_read relayed items).
  destruct (experimental_onFunctionCall cb) as [h|].
  - destruct (transformer_at_flush cb (items_read relayed items)) as (Hout & _).
    destruct (transform_all cb Transformer.init (items_read relayed items))
      as [before st].
    simpl in Hout.
    assert (Hbefore : Forall is_line (output before))
      by (rewrite Hout; now apply Forall_is_line_text_events).
    destruct ending0 as [e|].
    + intros H. injection H as <- <-. exact Hbefore.
    + destruct (flush relayed rec cb st) as [[events' ending']|] eqn:Hf;
        [|discriminate].
      intros H. injection H as <- <-. rewrite output_app.
      apply Forall_app. split; [exact Hbefore|].
      destruct (flush_cases _ _ _ _ _ _ Hf)
        as [(own & enqueued & -> & _ & _ & Hown & Henq)
           | (fname & args & res' & cb' & nested & -> & Hn & _ & _ & Hsame)].
      * rewrite output_app, Hown.
        destruct (flush_end_quiet relayed cb st enqueued Henq) as (_ & _ & ->).
        destruct Henq as [-> | (v & [-> | ->])]; repeat constructor.
        -- now apply is_line_function_call_event.
        -- now apply is_line_text_event.
      * simpl. apply (IH _ _ _ _ (eq_trans Hsame Hmode) Hn).
  - intros H. injection H as <- <-.
    rewrite (output_stream_data _ cb (items_read relayed items) eq_refl).
    now apply Forall_is_line_text_events.
Qed.

Lemma complex_mode_only_lines_relayed (depth : nat) :
  forall res cb events ending,
  experimental_streamData cb = true ->
  OpenAIStream_relayed depth res cb = Some (events, ending) ->
  Forall is_line (output events).
Proof.
  induction depth as [|depth IH]; intros res cb events ending Hmode;
    [discriminate|].
  exact (lines_OpenAIStream_body true _ IH res cb events ending Hmode).
Qed.

(** In complex mode every chunk of the caller-visible stream is one line of
    the stream format, of the text or of the function-call kind, through
    every continuation; a line of the data kind is never enqueued. *)
Theorem complex_mode_only_lines (depth : nat) :
  forall res cb events ending,
  experimental_streamData cb = true ->
  OpenAIStream depth res cb = Some (events, ending) ->
  Forall is_line (output events).
Proof.
  destruct depth as [|depth]; intros res cb events ending Hmode;
    [discriminate|].
  exact (lines_OpenAIStream_body false _ (complex_mode_only_lines_relayed depth)
           res cb events ending Hmode).
Qed.

Lemma complex_mode_only_lines_witness :
  Forall is_line
    [getStreamString text_ (lit "Hi");
     getStreamString function_call_
       (function_call_opening (lit "f") ++ lit "{}" ++ function_call_closing)].
Proof.
  exact (complex_mode_only_lines 1 (content_chunk (lit "Hi") :: call_f)
           (with_handler decline true)
           [Enqueue (getStreamString text_ (lit "Hi"));
            Notify (Call (Some (JSON.JString (lit "f"))) (JSON.JObject []) []);
            Enqueue (getStreamString function_call_
                       (function_call_opening (lit "f") ++ lit "{}"
                          ++ function_call_closing));
            Notify (Final (lit "Hi" ++ function_call_opening (lit "f")
                             ++ lit "{}" ++ function_call_closing))]
           None eq_refl eq_refl).
Defined.











